(** * The image REST gateway of [app/main.go], embedded in Rocq.

    Go strings are byte sequences, so they are modelled as [string]
    (lists of 8-bit [ascii]).  A Go [map[string]bool] is a [gmap string bool].
    A Go [error] is represented by the text its [Error()] method returns. *)

From Stdlib Require Import ZArith NArith Ascii String.
From stdpp Require Import gmap strings list fin_maps.

Local Open Scope string_scope.
Local Open Scope Z_scope.

(** ** Go values *)

(** A Go [error] value that is not [nil], by the text of its [Error()]. *)
Definition error := string.

(** A Go result pair [(v, err)]: the callers in main.go read [v] only when
    [err == nil]. *)
Inductive result (A : Type) : Type :=
| Ok (v : A)
| Err (err : error).
Arguments Ok {A} v.
Arguments Err {A} err.

Definition byte_of (a : ascii) : N := N_of_ascii a.

(** The double quote, byte 34, as a one-byte string. *)
Definition dq : string := String "034" "".

(** [strings.TrimRight(s, cutset)] for an ASCII cutset: trailing bytes that
    occur in [cutset] are removed one by one. *)
Fixpoint in_cutset (cutset : string) (a : ascii) : bool :=
  match cutset with
  | EmptyString => false
  | String c cutset' => if Ascii.eqb a c then true else in_cutset cutset' a
  end.

Fixpoint TrimRight (s cutset : string) : string :=
  match s with
  | EmptyString => EmptyString
  | String a s' =>
      match TrimRight s' cutset with
      | EmptyString => if in_cutset cutset a then EmptyString else String a EmptyString
      | t => String a t
      end
  end.

(** [Contains s t]: [t] occurs in [s] as a contiguous run of bytes. *)
Definition Contains (s t : string) : Prop :=
  ∃ pre post : string, s = pre +:+ t +:+ post.

(** ** [unicode/utf8]: decoding the first rune of a string *)

Module Utf8.

Definition RuneError : N := 0xFFFD.
Definition RuneSelf : N := 0x80.
Definition UTFMax : nat := 4.

Definition locb : N := 0x80.
Definition hicb : N := 0xBF.

(** The classes of a first byte: [as_] ASCII, [xx] invalid, [s1]..[s7]
    carry the size in the low three bits and the index of the accepted
    range of the second byte in the high four. *)
Definition xx : N := 0xF1.
Definition as_ : N := 0xF0.
Definition s1 : N := 0x02.
Definition s2 : N := 0x13.
Definition s3 : N := 0x03.
Definition s4 : N := 0x23.
Definition s5 : N := 0x34.
Definition s6 : N := 0x04.
Definition s7 : N := 0x44.

Definition first (b : N) : N :=
  if (b <? 0x80)%N then as_
  else if (b <? 0xC2)%N then xx
  else if (b <? 0xE0)%N then s1
  else if (b =? 0xE0)%N then s2
  else if (b <? 0xED)%N then s3
  else if (b =? 0xED)%N then s4
  else if (b <? 0xF0)%N then s3
  else if (b =? 0xF0)%N then s5
  else if (b <? 0xF4)%N then s6
  else if (b =? 0xF4)%N then s7
  else xx.

Definition acceptRanges (i : N) : N * N :=
  match i with
  | 0%N => (locb, hicb)
  | 1%N => (0xA0%N, hicb)
  | 2%N => (locb, 0x9F%N)
  | 3%N => (0x90%N, hicb)
  | 4%N => (locb, 0x8F%N)
  | _ => (0%N, 0%N)
  end.

Definition mask2 : N := 0x1F.
Definition mask3 : N := 0x0F.
Definition mask4 : N := 0x07.
Definition maskx : N := 0x3F.

Definition at_ (s : string) (i : nat) : N :=
  match String.get i s with
  | Some a => byte_of a
  | None => 0%N
  end.

(** [utf8.DecodeRuneInString]: the rune and the number of bytes it takes. *)
Definition DecodeRuneInString (s : string) : N * nat :=
  let n := String.length s in
  if (n <? 1)%nat then (RuneError, 0%nat)
  else
    let s0 := at_ s 0 in
    let x := first s0 in
    if (as_ <=? x)%N then
      ((if (x =? as_)%N then s0 else RuneError), 1%nat)
    else
      let sz := N.to_nat (N.land x 7) in
      let accept := acceptRanges (N.shiftr x 4) in
      if (n <? sz)%nat then (RuneError, 1%nat)
      else
        let b1 := at_ s 1 in
        if ((b1 <? fst accept) || (snd accept <? b1))%N then (RuneError, 1%nat)
        else if (sz <=? 2)%nat then
          (N.lor (N.shiftl (N.land s0 mask2) 6) (N.land b1 maskx), 2%nat)
        else
          let b2 := at_ s 2 in
          if ((b2 <? locb) || (hicb <? b2))%N then (RuneError, 1%nat)
          else if (sz <=? 3)%nat then
            (N.lor (N.lor (N.shiftl (N.land s0 mask3) 12)
                          (N.shiftl (N.land b1 maskx) 6))
                   (N.land b2 maskx), 3%nat)
          else
            let b3 := at_ s 3 in
            if ((b3 <? locb) || (hicb <? b3))%N then (RuneError, 1%nat)
            else
              (N.lor (N.lor (N.lor (N.shiftl (N.land s0 mask4) 18)
                                   (N.shiftl (N.land b1 maskx) 12))
                            (N.shiftl (N.land b2 maskx) 6))
                     (N.land b3 maskx), 4%nat).

End Utf8.

(** ** [encoding/json]: how [json.Marshal] writes a string and a [Message] *)

Module Json.

Definition hex (d : N) : ascii :=
  match String.get (N.to_nat d) "0123456789abcdef" with
  | Some a => a
  | None => "0"%char
  end.

(** [htmlSafeSet]: the ASCII bytes that are written as they are, which is
    every byte from space to DEL except the double quote, the backslash
    and the three characters [<], [>] and [&]. *)
Definition htmlSafeSet (b : N) : bool :=
  ((0x20 <=? b) && (b <? 0x80)
   && negb (b =? 0x22) && negb (b =? 0x5C)
   && negb (b =? 0x26) && negb (b =? 0x3C) && negb (b =? 0x3E))%N.

(** The escape written for an ASCII byte outside [htmlSafeSet]; the
    short forms for backspace and form feed are those of Go 1.22 on. *)
Definition escape_ascii (a : ascii) : string :=
  let b := byte_of a in
  if ((b =? 0x5C) || (b =? 0x22))%N then String "\" (String a "")
  else if (b =? 0x08)%N then "\b"
  else if (b =? 0x0C)%N then "\f"
  else if (b =? 0x0A)%N then "\n"
  else if (b =? 0x0D)%N then "\r"
  else if (b =? 0x09)%N then "\t"
  else "\u00" +:+ String (hex (N.shiftr b 4)) (String (hex (N.land b 0xF)) "").

(** [src[n:]] and [src[:n]], cut at the end of [src]. *)
Fixpoint drop_bytes (n : nat) (s : string) : string :=
  match n, s with
  | S n', String _ r => drop_bytes n' r
  | _, _ => s
  end.

Fixpoint take_bytes (n : nat) (s : string) : string :=
  match n, s with
  | S n', String a r => String a (take_bytes n' r)
  | _, _ => EmptyString
  end.

(** The loop of [appendString] with [escapeHTML] set, on the part of the
    source that is still to be read; [fuel] bounds the iterations, each of
    which reads at least one byte. *)
Fixpoint appendString_loop (fuel : nat) (src : string) : string :=
  match fuel with
  | O => ""
  | S fuel' =>
      match src with
      | EmptyString => ""
      | String a rest =>
          let b := byte_of a in
          if (b <? Utf8.RuneSelf)%N then
            if htmlSafeSet b then String a (appendString_loop fuel' rest)
            else escape_ascii a +:+ appendString_loop fuel' rest
          else
            let '(c, size) :=
              Utf8.DecodeRuneInString (take_bytes Utf8.UTFMax src) in
            if ((c =? Utf8.RuneError)%N && (size =? 1)%nat) then
              "\ufffd" +:+ appendString_loop fuel' (drop_bytes size src)
            else if ((c =? 0x2028) || (c =? 0x2029))%N then
              "\u202" +:+ String (hex (N.land c 0xF))
                (appendString_loop fuel' (drop_bytes size src))
            else
              take_bytes size src
                +:+ appendString_loop fuel' (drop_bytes size src)
      end
  end.

(** [appendString]: the JSON string literal for [src]. *)
Definition appendString (src : string) : string :=
  dq +:+ appendString_loop (String.length src) src +:+ dq.

End Json.

(** ** The MIME validator ([MimeMap], main.go:115-138) *)

Module Mime.

(** [type MimeMap map[string]bool] *)
Abbreviation MimeMap := (gmap string bool).

(** [NewMimeMap]: [m := make(MimeMap); for _, v := range s { m[v] = true }]. *)
Definition NewMimeMap (s : list string) : MimeMap :=
  foldl (fun m v => <[v:=true]> m) ∅ s.

(** [Valid]: [_, ok := m[mimetype]; return ok]. *)
Definition Valid (m : MimeMap) (mimetype : string) : bool :=
  match m !! mimetype with
  | Some _ => true
  | None => false
  end.

(** The string that [List] builds from the keys in the order in which
    [for i := range m] visits them; Go leaves that order unspecified, so it
    is an argument here. *)
Definition List_of (order : list string) : string :=
  TrimRight (foldl (fun sb i => sb +:+ i +:+ ", ") "" order) ", ".

End Mime.

Import Mime.

(** ** JSON texts (RFC 8259), to say what a well-formed body is *)

Module JsonSyntax.

Definition is_ws (a : ascii) : bool :=
  let b := byte_of a in
  ((b =? 0x20) || (b =? 0x09) || (b =? 0x0A) || (b =? 0x0D))%N.

Definition is_digit (a : ascii) : bool :=
  let b := byte_of a in ((0x30 <=? b) && (b <=? 0x39))%N.

Definition is_hexdigit (a : ascii) : bool :=
  let b := byte_of a in
  (((0x30 <=? b) && (b <=? 0x39)) || ((0x41 <=? b) && (b <=? 0x46))
   || ((0x61 <=? b) && (b <=? 0x66)))%N.

(** The byte after a backslash in a two-byte escape. *)
Definition is_escapee (a : ascii) : bool :=
  let b := byte_of a in
  ((b =? 0x22) || (b =? 0x5C) || (b =? 0x2F) || (b =? 0x62) || (b =? 0x66)
   || (b =? 0x6E) || (b =? 0x72) || (b =? 0x74))%N.

Fixpoint skip_ws (s : string) : string :=
  match s with
  | String a r => if is_ws a then skip_ws r else s
  | EmptyString => s
  end.

(** After an opening quote: the input that follows the closing quote. *)
Fixpoint string_rest (s : string) : option string :=
  match s with
  | EmptyString => None
  | String a r =>
      let b := byte_of a in
      if (b =? 0x22)%N then Some r
      else if (b =? 0x5C)%N then
        match r with
        | String e r' =>
            if is_escapee e then string_rest r'
            else if (byte_of e =? 0x75)%N then
              match r' with
              | String h1 (String h2 (String h3 (String h4 r''))) =>
                  if is_hexdigit h1 && is_hexdigit h2
                     && is_hexdigit h3 && is_hexdigit h4
                  then string_rest r'' else None
              | _ => None
              end
            else None
        | EmptyString => None
        end
      else if (b <? 0x20)%N then None
      else string_rest r
  end.

(** Leading digits: how many there are and what follows them. *)
Fixpoint digits (s : string) : nat * string :=
  match s with
  | String a r =>
      if is_digit a then let '(n, t) := digits r in (S n, t) else (O, s)
  | EmptyString => (O, s)
  end.

Definition starts_with (c : N) (s : string) : option string :=
  match s with
  | String a r => if (byte_of a =? c)%N then Some r else None
  | EmptyString => None
  end.

Definition opt_sign (minus_only : bool) (s : string) : string :=
  match s with
  | String a r =>
      if ((byte_of a =? 0x2D) || (negb minus_only && (byte_of a =? 0x2B)))%N
      then r else s
  | EmptyString => s
  end.

(** number = [ minus ] int [ frac ] [ exp ] *)
Definition number (s : string) : option string :=
  let s1 := opt_sign true s in
  let int_part :=
    match s1 with
    | String a r =>
        if (byte_of a =? 0x30)%N then Some r
        else if is_digit a then Some (snd (digits r))
        else None
    | EmptyString => None
    end in
  match int_part with
  | None => None
  | Some s2 =>
      let frac :=
        match starts_with 0x2E s2 with
        | Some r => let '(n, t) := digits r in
                    if (n =? 0)%nat then None else Some t
        | None => Some s2
        end in
      match frac with
      | None => None
      | Some s3 =>
          match s3 with
          | String a r =>
              if ((byte_of a =? 0x65) || (byte_of a =? 0x45))%N then
                let '(n, t) := digits (opt_sign false r) in
                if (n =? 0)%nat then None else Some t
              else Some s3
          | EmptyString => Some s3
          end
      end
  end.

Fixpoint literal (lit s : string) : option string :=
  match lit with
  | EmptyString => Some s
  | String c lit' =>
      match s with
      | String a r => if Ascii.eqb a c then literal lit' r else None
      | EmptyString => None
      end
  end.

(** What the recogniser expects next. *)
Inductive expect : Type :=
| AValue      (* a value *)
| AMember     (* string : value *)
| MoreElems   (* , value ... ] *)
| MoreMembers (* , member ... } *).

Fixpoint parse (fuel : nat) (e : expect) (s : string) : option string :=
  match fuel with
  | O => None
  | S fuel' =>
      match e, s with
      | _, EmptyString => None
      | AValue, String a r =>
          let b := byte_of a in
          if (b =? 0x22)%N then string_rest r
          else if (b =? 0x5B)%N then
            match starts_with 0x5D (skip_ws r) with
            | Some t => Some t
            | None =>
                match parse fuel' AValue (skip_ws r) with
                | Some t => parse fuel' MoreElems (skip_ws t)
                | None => None
                end
            end
          else if (b =? 0x7B)%N then
            match starts_with 0x7D (skip_ws r) with
            | Some t => Some t
            | None =>
                match parse fuel' AMember (skip_ws r) with
                | Some t => parse fuel' MoreMembers (skip_ws t)
                | None => None
                end
            end
          else if (b =? 0x74)%N then literal "true" s
          else if (b =? 0x66)%N then literal "false" s
          else if (b =? 0x6E)%N then literal "null" s
          else number s
      | AMember, String a r =>
          if (byte_of a =? 0x22)%N then
            match string_rest r with
            | Some t =>
                match starts_with 0x3A (skip_ws t) with
                | Some t' => parse fuel' AValue (skip_ws t')
                | None => None
                end
            | None => None
            end
          else None
      | MoreElems, String a r =>
          if (byte_of a =? 0x5D)%N then Some r
          else if (byte_of a =? 0x2C)%N then
            match parse fuel' AValue (skip_ws r) with
            | Some t => parse fuel' MoreElems (skip_ws t)
            | None => None
            end
          else None
      | MoreMembers, String a r =>
          if (byte_of a =? 0x7D)%N then Some r
          else if (byte_of a =? 0x2C)%N then
            match parse fuel' AMember (skip_ws r) with
            | Some t => parse fuel' MoreMembers (skip_ws t)
            | None => None
            end
          else None
      end
  end.

(** JSON-text = ws value ws *)
Definition is_json (s : string) : bool :=
  match parse (S (String.length s)) AValue (skip_ws s) with
  | Some t => match skip_ws t with EmptyString => true | _ => false end
  | None => false
  end.

End JsonSyntax.

(** ** The parts of [net/http] and [gorilla/mux] the handlers touch *)

Definition StatusOK : Z := 200.
Definition StatusCreated : Z := 201.
Definition StatusNoContent : Z := 204.
Definition StatusInternalServerError : Z := 500.

(** [textproto.MIMEHeader] and [http.Header]: [map[string][]string]. *)
Abbreviation MIMEHeader := (gmap string (list string)).

(** [Get]: the first value stored under the key, or the empty string.
    The handlers only pass keys that are already in canonical form. *)
Definition Header_Get (h : MIMEHeader) (key : string) : string :=
  match h !! key with
  | Some (v :: _) => v
  | _ => ""
  end.

(** [Set]: the key now holds the single value. *)
Definition Header_Set (h : MIMEHeader) (key value : string) : MIMEHeader :=
  <[key := [value]]> h.

(** [multipart.FileHeader], the fields that are read. *)
Record FileHeader : Type := {
  Filename : string;
  Header : MIMEHeader
}.

(** A request, by what the library calls made on it return: the route
    variables of [mux.Vars(r)], the error of [r.ParseMultipartForm(n)], and
    the file (its bytes) and header, or the error, of [r.FormFile(key)]. *)
Record Request : Type := {
  Vars : gmap string string;
  ParseMultipartForm : Z → option error;
  FormFile : string → result (string * FileHeader)
}.

(** The [http.ResponseWriter] that the server of [http.ListenAndServe]
    (main.go:63) hands to a handler, by what it sends: the header map, the
    status of the first [WriteHeader] and the bytes of the body. *)
Record ResponseWriter : Type := {
  HeaderMap : MIMEHeader;
  wroteHeader : bool;
  Code : Z;
  Body : string
}.

Definition NewRecorder : ResponseWriter :=
  {| HeaderMap := ∅; wroteHeader := false; Code := 200; Body := "" |}.

(** [bodyAllowedForStatus] of [net/http]: no body goes with a status from
    100 to 199, with 204 or with 304. *)
Definition bodyAllowedForStatus (status : Z) : bool :=
  if (100 <=? status) && (status <=? 199) then false
  else if status =? 204 then false
  else if status =? 304 then false
  else true.

(** ** The collaborators that are declared outside main.go *)

(** [CloudStorage], the package-level [cs]: a store of type [St] whose
    operations return their result and the store they leave behind.
    The content handed to [Create] is the uploaded file, by its bytes. *)
Class CloudStorage (St Obj : Type) : Type := {
  cs_List : St → result (list Obj) * St;
  cs_Read : string → St → result (list Obj) * St;
  cs_Create : string → string → St → option error * St;
  cs_Delete : string → St → option error * St
}.

(** [NewImages], from the stored files to the images that are served. *)
Class ImageMapper (Obj Image : Type) : Type := {
  NewImages : list Obj → result (list Image)
}.

(** [type JSONProducer interface] (main.go:203-206). *)
Class JSONProducer (T : Type) : Type := {
  JSON : T → result string;
  JSONBytes : T → result string
}.

(** What the Go runtime decides: the text [fmt.Sprintf(msg)] makes of a
    format string without operands, and the order in which [range] visits
    the keys of a map, each key once. *)
Class GoRuntime : Type := {
  fmt_Sprintf0 : string → string;
  range_order : MimeMap → list string;
  range_order_keys : ∀ m : MimeMap, range_order m ≡ₚ (map_to_list m).*1
}.

(** ** [Message] (main.go:241-265) *)

Record Message : Type := {
  Text : string;
  Details : string
}.

(** The JSON object of a [Message]: its two string fields under the keys
    of their tags, text and details. *)
Definition Message_json (m : Message) : string :=
  "{" +:+ dq +:+ "text" +:+ dq +:+ ":" +:+ Json.appendString (Text m)
  +:+ "," +:+ dq +:+ "details" +:+ dq +:+ ":"
  +:+ Json.appendString (Details m) +:+ "}".

(** [json.Marshal(m)] for a [Message]; it has no failing case. *)
Definition json_Marshal_Message (m : Message) : result string :=
  Ok (Message_json m).

Definition Message_JSON (m : Message) : result string :=
  match json_Marshal_Message m with
  | Err err => Err ("could not marshal json for response: " +:+ err)
  | Ok bytes => Ok bytes
  end.

Definition Message_JSONBytes (m : Message) : result string :=
  match json_Marshal_Message m with
  | Err err => Err ("could not marshal json for response: " +:+ err)
  | Ok bytes => Ok bytes
  end.

#[global] Instance Message_JSONProducer : JSONProducer Message :=
  {| JSON := Message_JSON; JSONBytes := Message_JSONBytes |}.

(** ** The state a handler runs in *)

(** A call made on the storage gateway. *)
Inductive Call : Type :=
| CallList
| CallRead (id : string)
| CallCreate (name content : string)
| CallDelete (id : string).

(** The response writer [w], the store behind the global [cs], the calls
    made on [cs] so far (oldest first) and the lines given to [log.Printf]. *)
Record State (St : Type) : Type := {
  w : ResponseWriter;
  store : St;
  calls : list Call;
  logged : list string
}.
Arguments w {St} _.
Arguments store {St} _.
Arguments calls {St} _.
Arguments logged {St} _.

(** Handlers are state transformers. *)
Definition M (St A : Type) : Type := State St → A * State St.

#[global] Instance M_ret St : MRet (M St) := fun A a s => (a, s).

#[global] Instance M_bind St : MBind (M St) :=
  fun A B k m s => let '(a, s') := m s in k a s'.

Definition exec {St A} (m : M St A) (s : State St) : State St := snd (m s).

Section Handlers.

Context {St Obj Image : Type}.
Context {CS : CloudStorage St Obj} {IM : ImageMapper Obj Image}.
Context {JI : JSONProducer Image} {JIs : JSONProducer (list Image)}.
Context {RT : GoRuntime}.

Definition with_w (f : ResponseWriter → ResponseWriter) : M St unit :=
  fun s => (tt, {| w := f (w s); store := store s;
                   calls := calls s; logged := logged s |}).

(** [w.Header().Set(key, value)] *)
Definition w_Header_Set (key value : string) : M St unit :=
  with_w (fun r => {| HeaderMap := Header_Set (HeaderMap r) key value;
                      wroteHeader := wroteHeader r;
                      Code := Code r; Body := Body r |}).

(** [w.WriteHeader(status)]: only the first call sets the status. *)
Definition w_WriteHeader (status : Z) : M St unit :=
  with_w (fun r => if wroteHeader r then r
                   else {| HeaderMap := HeaderMap r; wroteHeader := true;
                           Code := status; Body := Body r |}).

(** [w.Write(b)]: the status defaults to 200 if none was written, and
    the bytes are sent only if the status allows a body; otherwise [Write]
    sends nothing and returns [ErrBodyNotAllowed], which [writeResponse]
    does not look at. *)
Definition w_Write (b : string) : M St unit :=
  with_w (fun r =>
            let code := if wroteHeader r then Code r else StatusOK in
            {| HeaderMap := HeaderMap r; wroteHeader := true;
               Code := code;
               Body := if bodyAllowedForStatus code then Body r +:+ b
                       else Body r |}).

(** [log.Printf(format, ...)], by the formatted line. *)
Definition log_Printf (line : string) : M St unit :=
  fun s => (tt, {| w := w s; store := store s; calls := calls s;
                   logged := logged s ++ [line] |}).

(** One call on [cs]: run it on the store and note it. *)
Definition on_cs {A} (c : Call) (op : St → A * St) : M St A :=
  fun s => let '(a, st') := op (store s) in
           (a, {| w := w s; store := st';
                  calls := calls s ++ [c]; logged := logged s |}).

Definition cs_List_call : M St (result (list Obj)) :=
  on_cs CallList cs_List.
Definition cs_Read_call (id : string) : M St (result (list Obj)) :=
  on_cs (CallRead id) (cs_Read id).
Definition cs_Create_call (name content : string) : M St (option error) :=
  on_cs (CallCreate name content) (cs_Create name content).
Definition cs_Delete_call (id : string) : M St (option error) :=
  on_cs (CallDelete id) (cs_Delete id).

(** [MimeMap.List] (main.go:130-138). *)
Definition List (m : MimeMap) : string := List_of (range_order m).

(** [weblog] (main.go:237-239): [log.Printf] with format Webserver : %s. *)
Definition weblog (msg : string) : M St unit :=
  log_Printf ("Webserver : " +:+ msg).

(** [writeResponse] (main.go:224-235). *)
Definition writeResponse (status : Z) (msg : string) : M St unit :=
  (if negb (status =? StatusOK) then weblog (fmt_Sprintf0 msg) else mret tt) ;;
  w_Header_Set "Content-Type" "application/json; charset=utf-8" ;;
  w_Header_Set "Access-Control-Allow-Headers"
    "Content-Type,access-control-allow-origin, access-control-allow-headers" ;;
  w_WriteHeader status ;;
  w_Write msg.

(** [writeErrorMsg] (main.go:218-222): the error text is put between the
    quotes of the format as it is. *)
Definition writeErrorMsg (err : error) : M St unit :=
  let s := "{" +:+ dq +:+ "error" +:+ dq +:+ ":" +:+ dq +:+ err +:+ dq +:+ "}" in
  writeResponse StatusInternalServerError s.

(** [writeJSON] (main.go:208-216). *)
Definition writeJSON {T} {J : JSONProducer T} (j : T) (status : Z) : M St unit :=
  match JSON j with
  | Err err => writeErrorMsg err
  | Ok json => writeResponse status json
  end.

(** [listHandler] (main.go:66-82). *)
Definition listHandler (r : Request) : M St unit :=
  fs ← cs_List_call;
  match fs with
  | Err err => writeErrorMsg ("failed to list files: " +:+ err)
  | Ok fs =>
      match NewImages fs with
      | Err err =>
          writeErrorMsg ("failed to convert files to images images: " +:+ err)
      | Ok is_ => writeJSON is_ StatusOK
      end
  end.

(** The allow-list of [createHandler] (main.go:96). *)
Definition allowed_types : list string :=
  ["image/png"; "image/jpeg"; "image/gif"].

(** [createHandler] (main.go:84-113).  The result of
    [r.ParseMultipartForm] is dropped; [defer file.Close()] has no effect
    on what is modelled. *)
Definition createHandler (r : Request) : M St unit :=
  let _ := ParseMultipartForm r (Z.shiftl 10 20) in
  match FormFile r "myFile" with
  | Err err => writeErrorMsg ("error retrieving file: " +:+ err)
  | Ok (file, handler) =>
      let mimemap := NewMimeMap allowed_types in
      let mimetype := Header_Get (Header handler) "Content-Type" in
      if negb (Valid mimemap mimetype) then
        let mimelist := List mimemap in
        writeErrorMsg ("invalid image type, want one of " +:+ mimelist
                       +:+ " got : " +:+ mimetype)
      else
        err ← cs_Create_call (Filename handler) file;
        match err with
        | Some err => writeErrorMsg ("image couldn't be created: " +:+ err)
        | None => writeResponse StatusCreated ""
        end
  end.

(** [mux.Vars(r)[key]]: a missing key reads as the empty string. *)
Definition Vars_get (r : Request) (key : string) : string :=
  default "" (Vars r !! key).

(** [updateHandler] (main.go:140-165). *)
Definition updateHandler (r : Request) : M St unit :=
  let id := Vars_get r "id" in
  let _ := ParseMultipartForm r (Z.shiftl 10 20) in
  match FormFile r "myFile" with
  | Err err => writeErrorMsg ("error retrieving file: " +:+ err)
  | Ok (file, handler) =>
      err ← cs_Delete_call id;
      match err with
      | Some err => writeErrorMsg ("error replacing file: " +:+ err)
      | None =>
          err ← cs_Create_call (Filename handler) file;
          match err with
          | Some err => writeErrorMsg ("image couldn't be created: " +:+ err)
          | None => writeResponse StatusOK ""
          end
      end
  end.

(** [readHandler] (main.go:167-188): [is[0]] is read only when
    [len(is) < 1] is false. *)
Definition readHandler (r : Request) : M St unit :=
  let id := Vars_get r "id" in
  fs ← cs_Read_call id;
  match fs with
  | Err err =>
      writeErrorMsg ("failed to read files " +:+ id +:+ ": " +:+ err)
  | Ok fs =>
      match NewImages fs with
      | Err err =>
          writeErrorMsg ("failed to convert files to images images: " +:+ err)
      | Ok is_ =>
          match is_ with
          | [] => writeResponse StatusNoContent ""
          | is0 :: _ => writeJSON is0 StatusOK
          end
      end
  end.

(** [deleteHandler] (main.go:190-200). *)
Definition deleteHandler (r : Request) : M St unit :=
  let id := Vars_get r "id" in
  err ← cs_Delete_call id;
  match err with
  | Some err => writeErrorMsg err
  | None =>
      let msg := {| Text := "image deleted";
                    Details := "image id: " +:+ id |} in
      writeJSON msg StatusNoContent
  end.

End Handlers.

(** A request is served with a fresh response writer and an empty record
    of calls and log lines; the result is the state the handler leaves. *)
Definition init {St} (st : St) : State St :=
  {| w := NewRecorder; store := st; calls := []; logged := [] |}.

Definition serve {St} (h : Request → M St unit) (r : Request) (st : St)
  : State St :=
  exec (h r) (init st).

(** ** Base64, the text in which the bytes of an image are served *)

Module Base64.

(** The standard alphabet; the padding character is the equals sign. *)
Definition alphabet : string :=
  "ABCDEFGHIJKLMNOPQRSTUVWXYZabcdefghijklmnopqrstuvwxyz0123456789+/".

Definition pad : ascii := "="%char.

(** Six bits, the most significant first. *)
Inductive sextet : Type :=
| Sextet (b5 b4 b3 b2 b1 b0 : bool).

Definition index_of_sextet (p : sextet) : nat :=
  let 'Sextet b5 b4 b3 b2 b1 b0 := p in
  ((if b5 then 32 else 0) + (if b4 then 16 else 0) + (if b3 then 8 else 0)
   + (if b2 then 4 else 0) + (if b1 then 2 else 0) + (if b0 then 1 else 0))%nat.

Definition sextet_of_index (n : nat) : sextet :=
  Sextet (Nat.testbit n 5) (Nat.testbit n 4) (Nat.testbit n 3)
         (Nat.testbit n 2) (Nat.testbit n 1) (Nat.testbit n 0).

Definition char_of_sextet (p : sextet) : ascii :=
  match String.get (index_of_sextet p) alphabet with
  | Some a => a
  | None => pad
  end.

Fixpoint index_in (a : ascii) (s : string) : option nat :=
  match s with
  | EmptyString => None
  | String c r =>
      if Ascii.eqb a c then Some O
      else match index_in a r with
           | Some n => Some (S n)
           | None => None
           end
  end.

Definition sextet_of_char (a : ascii) : option sextet :=
  match index_in a alphabet with
  | Some n => Some (sextet_of_index n)
  | None => None
  end.

(** Three bytes give four characters; one or two bytes left at the end
    give two or three characters and padding.  The first bit of [Ascii]
    is the least significant. *)
Fixpoint encode (s : string) : string :=
  match s with
  | EmptyString => EmptyString
  | String (Ascii x0 x1 x2 x3 x4 x5 x6 x7) r =>
      let c0 := char_of_sextet (Sextet x7 x6 x5 x4 x3 x2) in
      match r with
      | EmptyString =>
          String c0
            (String (char_of_sextet (Sextet x1 x0 false false false false))
               (String pad (String pad EmptyString)))
      | String (Ascii y0 y1 y2 y3 y4 y5 y6 y7) r1 =>
          let c1 := char_of_sextet (Sextet x1 x0 y7 y6 y5 y4) in
          match r1 with
          | EmptyString =>
              String c0
                (String c1
                   (String (char_of_sextet (Sextet y3 y2 y1 y0 false false))
                      (String pad EmptyString)))
          | String (Ascii z0 z1 z2 z3 z4 z5 z6 z7) r2 =>
              String c0
                (String c1
                   (String (char_of_sextet (Sextet y3 y2 y1 y0 z7 z6))
                      (String (char_of_sextet (Sextet z5 z4 z3 z2 z1 z0))
                         (encode r2))))
          end
      end
  end.

(** Four characters give three bytes; padding is accepted in the last
    group only. *)
Fixpoint decode (s : string) : option string :=
  match s with
  | EmptyString => Some EmptyString
  | String c0 (String c1 (String c2 (String c3 r))) =>
      match sextet_of_char c0, sextet_of_char c1 with
      | Some (Sextet x7 x6 x5 x4 x3 x2), Some (Sextet x1 x0 y7 y6 y5 y4) =>
          let b0 := Ascii x0 x1 x2 x3 x4 x5 x6 x7 in
          if Ascii.eqb c2 pad then
            if Ascii.eqb c3 pad then
              match r with
              | EmptyString => Some (String b0 EmptyString)
              | _ => None
              end
            else None
          else
            match sextet_of_char c2 with
            | Some (Sextet y3 y2 y1 y0 z7 z6) =>
                let b1 := Ascii y0 y1 y2 y3 y4 y5 y6 y7 in
                if Ascii.eqb c3 pad then
                  match r with
                  | EmptyString => Some (String b0 (String b1 EmptyString))
                  | _ => None
                  end
                else
                  match sextet_of_char c3 with
                  | Some (Sextet z5 z4 z3 z2 z1 z0) =>
                      let b2 := Ascii z0 z1 z2 z3 z4 z5 z6 z7 in
                      match decode r with
                      | Some t => Some (String b0 (String b1 (String b2 t)))
                      | None => None
                      end
                  | None => None
                  end
            | None => None
            end
      | _, _ => None
      end
  | _ => None
  end.

End Base64.

(** ** An in-memory storage gateway and image mapper *)

Module Mem.

(** Modelled from the spec: the ObjectDescriptor of the Storage Gateway,
    which main.go only names through [cs.List] and [cs.Read]; it
    identifies a stored file by its name, which is its id, and holds the
    content bytes.  The content type of the spec's descriptor is left out:
    [Create] is not given one. *)
Record Object : Type := {
  Name : string;
  Data : string
}.

(** Modelled from the spec: the bucket behind the Storage Gateway, whose
    implementation is not in main.go.  [objects] holds the stored files by
    name.  [faults] is the backend's schedule of failures: every call takes
    the next entry and, if it is an error, returns it and changes nothing
    (each call either fully succeeds or returns an error).
    [absent_is_error] says whether the backend reports the deletion of an
    already absent object as an error. *)
Record Bucket : Type := {
  objects : gmap string Object;
  faults : list (option error);
  absent_is_error : bool
}.

Definition next_fault (b : Bucket) : option error :=
  match faults b with
  | Some e :: _ => Some e
  | _ => None
  end.

Definition pop_fault (b : Bucket) : Bucket :=
  {| objects := objects b; faults := tail (faults b);
     absent_is_error := absent_is_error b |}.

Definition set_objects (m : gmap string Object) (b : Bucket) : Bucket :=
  {| objects := m; faults := faults b;
     absent_is_error := absent_is_error b |}.

(** Modelled from the spec: List returns all objects currently in the
    bucket. *)
Definition List (b : Bucket) : result (list Object) * Bucket :=
  match next_fault b with
  | Some e => (Err e, pop_fault b)
  | None => (Ok (map_to_list (objects b)).*2, pop_fault b)
  end.

(** Modelled from the spec: Read returns zero or one matching descriptor;
    zero results is not an error. *)
Definition Read (id : string) (b : Bucket) : result (list Object) * Bucket :=
  match next_fault b with
  | Some e => (Err e, pop_fault b)
  | None =>
      (Ok (match objects b !! id with Some o => [o] | None => [] end),
       pop_fault b)
  end.

(** Modelled from the spec: Create uploads the content under the given
    name; the service imposes no uniqueness check, and here the backend
    replaces an object of the same name. *)
Definition Create (name content : string) (b : Bucket)
  : option error * Bucket :=
  match next_fault b with
  | Some e => (Some e, pop_fault b)
  | None =>
      (None,
       set_objects (<[name := {| Name := name; Data := content |}]> (objects b))
                   (pop_fault b))
  end.

(** Modelled from the spec: Delete removes the named object; error if the
    backend reports one, including already absent. *)
Definition Delete (id : string) (b : Bucket) : option error * Bucket :=
  match next_fault b with
  | Some e => (Some e, pop_fault b)
  | None =>
      match objects b !! id with
      | Some _ => (None, set_objects (delete id (objects b)) (pop_fault b))
      | None =>
          if absent_is_error b
          then (Some "storage: object doesn't exist", pop_fault b)
          else (None, pop_fault b)
      end
  end.

#[global] Instance Bucket_CloudStorage : CloudStorage Bucket Object :=
  {| cs_List := List; cs_Read := Read;
     cs_Create := Create; cs_Delete := Delete |}.

(** Modelled from the spec: the Image served to API consumers, the
    projection of one ObjectDescriptor: identifier, display name and
    content, the bytes of the object. *)
Record Image : Type := {
  ID : string;
  DisplayName : string;
  Content : string
}.

(** Modelled from the spec: the Image of one descriptor; bytes held in
    memory are always readable, so the mapping does not fail here. *)
Definition NewImage (o : Object) : result Image :=
  Ok {| ID := Name o; DisplayName := Name o; Content := Data o |}.

(** Modelled from the spec: the Image Mapper maps each descriptor to an
    Image in input order and fails fast on the first unmappable
    descriptor, returning no partial result. *)
Fixpoint FromDescriptors (fs : list Object) : result (list Image) :=
  match fs with
  | [] => Ok []
  | f :: fs' =>
      match NewImage f with
      | Err e => Err e
      | Ok i =>
          match FromDescriptors fs' with
          | Err e => Err e
          | Ok is_ => Ok (i :: is_)
          end
      end
  end.

#[global] Instance Bucket_ImageMapper : ImageMapper Object Image :=
  {| NewImages := FromDescriptors |}.

(** Modelled from the spec: the JSON object of an Image and the JSON array
    of a sequence of Images.  The identifier and the name are written as
    [json.Marshal] writes strings; the content is encoded, as the spec
    leaves to the implementation, in the way [json.Marshal] writes a slice
    of bytes: in base64 between quotes. *)
Definition Image_json (i : Image) : string :=
  "{" +:+ dq +:+ "id" +:+ dq +:+ ":" +:+ Json.appendString (ID i)
  +:+ "," +:+ dq +:+ "name" +:+ dq +:+ ":" +:+ Json.appendString (DisplayName i)
  +:+ "," +:+ dq +:+ "content" +:+ dq +:+ ":"
  +:+ dq +:+ Base64.encode (Content i) +:+ dq
  +:+ "}".

Fixpoint Images_json_tail (is_ : list Image) : string :=
  match is_ with
  | [] => "]"
  | i :: is' => "," +:+ Image_json i +:+ Images_json_tail is'
  end.

Definition Images_json (is_ : list Image) : string :=
  match is_ with
  | [] => "[]"
  | i :: is' => "[" +:+ Image_json i +:+ Images_json_tail is'
  end.

#[global] Instance Image_JSONProducer : JSONProducer Image :=
  {| JSON := fun i => Ok (Image_json i);
     JSONBytes := fun i => Ok (Image_json i) |}.

#[global] Instance Images_JSONProducer : JSONProducer (list Image) :=
  {| JSON := fun is_ => Ok (Images_json is_);
     JSONBytes := fun is_ => Ok (Images_json is_) |}.

(** A runtime for running examples: [range] visits the keys in the order
    of [map_to_list], and the format strings logged hold no verb, so that
    [fmt.Sprintf] returns them as they are. *)
#[global] Instance Plain_GoRuntime : GoRuntime :=
  {| fmt_Sprintf0 := fun msg => msg;
     range_order := fun m => (map_to_list m).*1;
     range_order_keys := fun m => reflexivity _ |}.

Definition empty_bucket : Bucket :=
  {| objects := ∅; faults := []; absent_is_error := true |}.

(** A multipart upload of one file under the field myFile. *)
Definition upload (filename content ctype : string) (vars : gmap string string)
  : Request :=
  {| Vars := vars;
     ParseMultipartForm := fun _ => None;
     FormFile := fun key =>
       if String.eqb key "myFile"
       then Ok (content,
                {| Filename := filename;
                   Header := {["Content-Type" := [ctype]]} |})
       else Err "http: no such file" |}.

(** A request without a body, for the routes with an id. *)
Definition bare (vars : gmap string string) : Request :=
  {| Vars := vars;
     ParseMultipartForm :=
       fun _ => Some "request Content-Type isn't multipart/form-data";
     FormFile :=
       fun _ => Err "request Content-Type isn't multipart/form-data" |}.

End Mem.

(** ** Vocabulary of the properties *)

(** The body that [writeErrorMsg] writes for an error text. *)
Definition error_body (err : error) : string :=
  "{" +:+ dq +:+ "error" +:+ dq +:+ ":" +:+ dq +:+ err +:+ dq +:+ "}".

(** The body that goes out when [msg] is written after the status. *)
Definition sent (status : Z) (msg : string) : string :=
  if bodyAllowedForStatus status then msg else "".

(** A writer nothing was written to yet. *)
Definition fresh {St} (s : State St) : Prop :=
  wroteHeader (w s) = false ∧ Body (w s) = "".

(** The body of a successful delete in the words of the spec: the id is
    put between the quotes as it is. *)
Definition spec_delete_body (id : string) : string :=
  "{" +:+ dq +:+ "text" +:+ dq +:+ ":" +:+ dq +:+ "image deleted" +:+ dq
  +:+ "," +:+ dq +:+ "details" +:+ dq +:+ ":" +:+ dq
  +:+ "image id: " +:+ id +:+ dq +:+ "}".

(** The [Message] that [deleteHandler] answers with. *)
Definition deleted_msg (id : string) : Message :=
  {| Text := "image deleted"; Details := "image id: " +:+ id |}.

(** Strings that [json.Marshal] writes as they are: every byte is in
    [htmlSafeSet]. *)
Fixpoint json_plain (s : string) : bool :=
  match s with
  | EmptyString => true
  | String a r => Json.htmlSafeSet (byte_of a) && json_plain r
  end.


(** What a consumer reads back from the JSON object of an image: the
    members are read in turn, the values of the other keys are passed
    over as JSON strings, and the value under the key content is decoded
    from base64. *)
Fixpoint until_quote (s : string) : option (string * string) :=
  match s with
  | EmptyString => None
  | String a r =>
      if (byte_of a =? 0x22)%N then Some (EmptyString, r)
      else match until_quote r with
           | Some (v, t) => Some (String a v, t)
           | None => None
           end
  end.

Fixpoint content_member (fuel : nat) (s : string) : option string :=
  match fuel with
  | O => None
  | S fuel' =>
      match JsonSyntax.starts_with 0x22 s with
      | None => None
      | Some r =>
          match until_quote r with
          | None => None
          | Some (key, r1) =>
              match JsonSyntax.starts_with 0x3A r1 with
              | None => None
              | Some r2 =>
                  match JsonSyntax.starts_with 0x22 r2 with
                  | None => None
                  | Some r3 =>
                      if String.eqb key "content" then
                        match until_quote r3 with
                        | Some (v, _) => Base64.decode v
                        | None => None
                        end
                      else
                        match JsonSyntax.string_rest r3 with
                        | None => None
                        | Some r4 =>
                            match JsonSyntax.starts_with 0x2C r4 with
                            | Some r5 => content_member fuel' r5
                            | None => None
                            end
                        end
                  end
              end
          end
      end
  end.

Definition content_of_body (body : string) : option string :=
  match JsonSyntax.starts_with 0x7B body with
  | Some r => content_member (String.length body) r
  | None => None
  end.

(** The request [r] with another outcome of [ParseMultipartForm]. *)
Definition with_parse (r : Request) (p : Z → option error) : Request :=
  {| Vars := Vars r; ParseMultipartForm := p; FormFile := FormFile r |}.

(** The five routes that [main] binds to handlers (main.go:51-55). *)
Inductive Route : Type :=
| GetImages    (* GET, OPTIONS /api/v1/image *)
| PostImage    (* POST /api/v1/image *)
| GetImage     (* GET /api/v1/image/{id} *)
| DeleteImage  (* DELETE /api/v1/image/{id} *)
| PutImage     (* POST, PUT /api/v1/image/{id} *).

Definition handler_of {St Obj Image : Type} {CS : CloudStorage St Obj}
    {IM : ImageMapper Obj Image} {JI : JSONProducer Image}
    {JIs : JSONProducer (list Image)} {RT : GoRuntime}
    (rt : Route) : Request → M St unit :=
  match rt with
  | GetImages => listHandler
  | PostImage => createHandler
  | GetImage => readHandler
  | DeleteImage => deleteHandler
  | PutImage => updateHandler
  end.

(** The statuses a route answers with. *)
Definition statuses_of (rt : Route) : list Z :=
  match rt with
  | GetImages => [200; 500]
  | PostImage => [201; 500]
  | GetImage => [200; 204; 500]
  | DeleteImage => [204; 500]
  | PutImage => [200; 500]
  end.

(** The two headers that [writeResponse] sets. *)
Definition response_headers : MIMEHeader :=
  Header_Set
    (Header_Set ∅ "Content-Type" "application/json; charset=utf-8")
    "Access-Control-Allow-Headers"
    "Content-Type,access-control-allow-origin, access-control-allow-headers".

(** A key that [List] renders in full: it is not empty and its last byte
    is neither a comma nor a space. *)
Fixpoint ends_clean (k : string) : bool :=
  match k with
  | EmptyString => false
  | String a EmptyString => negb (in_cutset ", " a)
  | String _ k' => ends_clean k'
  end.

(** Strings of bytes from 0x80 on. *)
Fixpoint high_bytes (s : string) : bool :=
  match s with
  | EmptyString => true
  | String a r => (0x80 <=? byte_of a)%N && high_bytes r
  end.

(** A run of complete characters of a JSON string: reading on after it
    is reading on from where it ends. *)
Definition json_chars (u : string) : Prop :=
  ∀ t, JsonSyntax.string_rest (u +:+ t) = JsonSyntax.string_rest t.

(** A state in which nothing was written or logged yet. *)
Definition untouched {St} (s : State St) : Prop :=
  w s = NewRecorder ∧ logged s = [].

(** A handler that ends in one [writeResponse] with one of the given
    statuses, on a writer and a log that are still untouched then. *)
Definition ends_with {St} {RT : GoRuntime} (statuses : list Z) (m : M St unit)
  : Prop :=
  ∀ s, untouched s →
    ∃ status msg s0, status ∈ statuses ∧ untouched s0
      ∧ exec m s = exec (writeResponse status msg) s0.

(** * Properties *)

Section StringFacts.

Lemma append_cons (x : ascii) (a b : string) :
  String x a +:+ b = String x (a +:+ b).
Proof. reflexivity. Qed.

Lemma append_nil_l (a : string) : "" +:+ a = a.
Proof. reflexivity. Qed.

Lemma append_assoc (a b c : string) : (a +:+ b) +:+ c = a +:+ (b +:+ c).
Proof.
  induction a as [|x a IH]; [done|]. by rewrite !append_cons, IH.
Qed.

Lemma append_nil_r (a : string) : a +:+ "" = a.
Proof.
  induction a as [|x a IH]; [done|]. by rewrite append_cons, IH.
Qed.

Lemma Contains_refl (s : string) : Contains s s.
Proof. exists "", "". by rewrite append_nil_l, append_nil_r. Qed.

Lemma Contains_app_l (p s t : string) : Contains s t → Contains (p +:+ s) t.
Proof.
  intros (pre & post & ->). exists (p +:+ pre), post.
  by rewrite append_assoc.
Qed.

Lemma Contains_app_r (s q t : string) : Contains s t → Contains (s +:+ q) t.
Proof.
  intros (pre & post & ->). exists pre, (post +:+ q).
  by rewrite !append_assoc.
Qed.

Lemma Contains_prefix (t q : string) : Contains (t +:+ q) t.
Proof. apply Contains_app_r, Contains_refl. Qed.

Lemma Contains_trans (s t u : string) :
  Contains s t → Contains t u → Contains s u.
Proof.
  intros (pre & post & ->) Htu.
  by apply Contains_app_l, Contains_app_r.
Qed.

(** [TrimRight] leaves what precedes a part that it does not trim away. *)
Lemma TrimRight_app (x y cutset : string) :
  TrimRight (x +:+ y) cutset =
    match TrimRight y cutset with
    | EmptyString => TrimRight x cutset
    | t => x +:+ t
    end.
Proof.
  induction x as [|a x IH].
  - rewrite append_nil_l. by destruct (TrimRight y cutset).
  - rewrite append_cons. simpl. rewrite IH.
    destruct (TrimRight y cutset); [done|]. by destruct x.
Qed.

Lemma TrimRight_keeps_last (t : string) (a : ascii) (cutset : string) :
  in_cutset cutset a = false →
  TrimRight (t +:+ String a "") cutset = t +:+ String a "".
Proof.
  intros Ha. rewrite TrimRight_app. simpl. by rewrite Ha.
Qed.

Lemma TrimRight_Contains (pre t post cutset : string) (a : ascii) :
  in_cutset cutset a = false →
  Contains (TrimRight (pre +:+ (t +:+ String a "") +:+ post) cutset)
           (t +:+ String a "").
Proof.
  intros Ha. rewrite TrimRight_app.
  assert (∃ q, TrimRight ((t +:+ String a "") +:+ post) cutset
                     = (t +:+ String a "") +:+ q) as [q Hq].
  { rewrite TrimRight_app. destruct (TrimRight post cutset) as [|c u] eqn:E.
    - exists "". by rewrite TrimRight_keeps_last, append_nil_r.
    - by exists (String c u). }
  rewrite Hq.
  destruct ((t +:+ String a "") +:+ q) as [|c u] eqn:E.
  - destruct t; simpl in E; discriminate.
  - rewrite <- E. apply Contains_app_l, Contains_prefix.
Qed.

(** The text built by the loop of [List] holds every key it visits. *)
Lemma List_loop_Contains (order : list string) (acc k : string) :
  k ∈ order →
  ∃ pre post,
    foldl (fun sb i => sb +:+ i +:+ ", ") acc order = pre +:+ k +:+ ", " +:+ post.
Proof.
  revert acc. induction order as [|i order IH]; intros acc Hk.
  - by apply not_elem_of_nil in Hk.
  - simpl. assert (Hacc : ∀ acc',
      ∃ post, foldl (fun sb i => sb +:+ i +:+ ", ") acc' order = acc' +:+ post).
    { clear. induction order as [|j order IH]; intros acc'; simpl.
      - exists "". by rewrite append_nil_r.
      - destruct (IH (acc' +:+ j +:+ ", ")) as [post ->].
        exists ((j +:+ ", ") +:+ post). by rewrite !append_assoc. }
    apply elem_of_cons in Hk as [->|Hk]; [|by apply IH].
    destruct (Hacc (acc +:+ i +:+ ", ")) as [post ->].
    exists acc, post. by rewrite !append_assoc.
Qed.

Lemma List_of_Contains (order : list string) (t : string) (a : ascii) :
  in_cutset ", " a = false →
  (t +:+ String a "") ∈ order →
  Contains (List_of order) (t +:+ String a "").
Proof.
  intros Ha Hk. unfold List_of.
  destruct (List_loop_Contains order "" _ Hk) as (pre & post & ->).
  by apply TrimRight_Contains.
Qed.

End StringFacts.

Section MimeFacts.

Lemma foldl_insert_lookup (s : list string) (m : MimeMap) (c : string) :
  is_Some (foldl (fun m v => <[v:=true]> m) m s !! c)
  ↔ c ∈ s ∨ is_Some (m !! c).
Proof.
  revert m. induction s as [|v s IH]; intros m; simpl.
  - split; [by right | intros [H|H]; [by apply not_elem_of_nil in H | done]].
  - rewrite IH, elem_of_cons, lookup_insert.
    case_decide as Hvc; subst.
    + split; [intros _; by left; left | intros _; right; eauto].
    + split.
      * intros [H|H]; [left; by right | by right].
      * intros [[H|H]|H]; [congruence | by left | by right].
Qed.

Lemma Valid_true_iff (m : MimeMap) (c : string) :
  Valid m c = true ↔ is_Some (m !! c).
Proof.
  unfold Valid. destruct (m !! c); split; intros H; try done; eauto.
Qed.

(** The lookup compares bytes: a type in another case is not allowed. *)
Example Valid_is_case_sensitive :
  Valid (NewMimeMap ["image/png"]) "image/png" = true
  ∧ Valid (NewMimeMap ["image/png"]) "Image/PNG" = false.
Proof. by vm_compute. Qed.

End MimeFacts.

Section EncodingFacts.

Lemma drop_bytes_length (n : nat) (s : string) :
  String.length (Json.drop_bytes n s) = (String.length s - n)%nat.
Proof.
  revert s. induction n as [|n IH]; intros [|a s]; simpl; done.
Qed.

(** A rune decoded from a string that is not empty takes at least one
    byte, so every round of the loop of [appendString] moves on. *)
Lemma DecodeRune_size_pos (a : ascii) (s : string) :
  (1 ≤ (Utf8.DecodeRuneInString (String a s)).2)%nat.
Proof.
  unfold Utf8.DecodeRuneInString.
  change (String.length (String a s) <? 1)%nat with false. cbv iota.
  repeat match goal with
         | |- context [if ?c then _ else _] => destruct c
         end; simpl; lia.
Qed.

(** The fuel of the loop is enough: any bound from the length of the
    source on gives the same text. *)
Lemma appendString_loop_fuel (f1 f2 : nat) (s : string) :
  (String.length s ≤ f1)%nat → (String.length s ≤ f2)%nat →
  Json.appendString_loop f1 s = Json.appendString_loop f2 s.
Proof.
  revert f2 s. induction f1 as [|f1 IH]; intros f2 s H1 H2.
  - destruct s; simpl in H1; [|lia]. by destruct f2.
  - destruct s as [|a r]; [by destruct f2|].
    destruct f2 as [|f2]; simpl in H1, H2; [lia|].
    cbn [Json.appendString_loop].
    destruct (byte_of a <? Utf8.RuneSelf)%N.
    + destruct (Json.htmlSafeSet (byte_of a));
        by rewrite (IH f2 r) by lia.
    + pose proof (DecodeRune_size_pos a (Json.take_bytes 3 r)) as Hpos.
      change (String a (Json.take_bytes 3 r))
        with (Json.take_bytes Utf8.UTFMax (String a r)) in Hpos.
      destruct (Utf8.DecodeRuneInString
                  (Json.take_bytes Utf8.UTFMax (String a r)))
        as [c size]. simpl in Hpos.
      assert (Hlen : (String.length (Json.drop_bytes size (String a r)) ≤ f1
                      ∧ String.length (Json.drop_bytes size (String a r)) ≤ f2)%nat).
      { rewrite drop_bytes_length. simpl. lia. }
      destruct Hlen as [Hl1 Hl2].
      by rewrite (IH f2 _ Hl1 Hl2).
Qed.

Lemma htmlSafe_is_ascii (b : N) :
  Json.htmlSafeSet b = true → (b <? Utf8.RuneSelf)%N = true.
Proof.
  unfold Json.htmlSafeSet. intros H.
  repeat (apply andb_prop in H as [H ?]). assumption.
Qed.

Lemma appendString_loop_plain (s : string) (fuel : nat) :
  json_plain s = true → (String.length s ≤ fuel)%nat →
  Json.appendString_loop fuel s = s.
Proof.
  revert fuel. induction s as [|a s IH]; intros fuel Hp Hf.
  - by destruct fuel.
  - destruct fuel as [|fuel]; simpl in Hf; [lia|].
    simpl in Hp. apply andb_prop in Hp as [Ha Hp]. simpl.
    rewrite (htmlSafe_is_ascii _ Ha), Ha. f_equal. apply IH; [done | lia].
Qed.

Lemma appendString_plain (s : string) :
  json_plain s = true → Json.appendString s = dq +:+ s +:+ dq.
Proof.
  intros Hp. unfold Json.appendString.
  by rewrite appendString_loop_plain.
Qed.

Lemma json_plain_app (a b : string) :
  json_plain a = true → json_plain b = true → json_plain (a +:+ b) = true.
Proof.
  intros Ha Hb. induction a as [|x a IH]; [done|].
  rewrite append_cons. simpl in *. apply andb_prop in Ha as [Hx Ha].
  by rewrite Hx, IH.
Qed.

Lemma Message_json_plain (id : string) :
  json_plain id = true → Message_json (deleted_msg id) = spec_delete_body id.
Proof.
  intros Hp. unfold Message_json, deleted_msg, spec_delete_body. simpl.
  rewrite (appendString_plain ("image id: " +:+ id))
    by (by apply json_plain_app).
  rewrite (appendString_plain "image deleted") by done.
  by rewrite !append_assoc.
Qed.



End EncodingFacts.

Section HandlerFacts.

Context {St Obj Image : Type}.
Context {CS : CloudStorage St Obj} {IM : ImageMapper Obj Image}.
Context {JI : JSONProducer Image} {JIs : JSONProducer (list Image)}.
Context {RT : GoRuntime}.

Lemma init_fresh (st : St) : fresh (init st).
Proof. done. Qed.

Lemma on_cs_fresh {A} (c : Call) (op : St → A * St) (s : State St) :
  fresh s → fresh (on_cs c op s).2.
Proof. unfold on_cs. by destruct (op (store s)). Qed.

Lemma writeResponse_spec (status : Z) (msg : string) (s : State St) :
  fresh s →
  let s' := exec (writeResponse status msg) s in
  Code (w s') = status ∧ Body (w s') = sent status msg
  ∧ store s' = store s ∧ calls s' = calls s.
Proof.
  intros [Hw Hb]. destruct s as [[h wh c b] st cl lg]; simpl in *; subst.
  unfold exec, writeResponse, sent.
  destruct (negb (status =? StatusOK)); simpl;
    unfold bodyAllowedForStatus;
    repeat match goal with
           | |- context [if ?c then _ else _] => destruct c
           end; done.
Qed.

Lemma writeErrorMsg_spec (err : error) (s : State St) :
  fresh s →
  let s' := exec (writeErrorMsg err) s in
  Code (w s') = 500 ∧ Body (w s') = error_body err
  ∧ store s' = store s ∧ calls s' = calls s.
Proof. intros Hs. by apply (writeResponse_spec 500). Qed.

(** The writer a handler leaves through [writeResponse] depends on the
    writer it started from only. *)
Lemma writeResponse_writer (status : Z) (msg : string) (s1 s2 : State St) :
  w s1 = w s2 →
  w (exec (writeResponse status msg) s1) = w (exec (writeResponse status msg) s2).
Proof.
  intros Hw. unfold exec, writeResponse.
  destruct (negb (status =? StatusOK)); simpl; by rewrite Hw.
Qed.

Lemma run_on_cs {A} (c : Call) (op : St → A * St) (k : A → M St unit)
    (s : State St) :
  exec (a ← on_cs c op; k a) s =
  exec (k (op (store s)).1)
       {| w := w s; store := (op (store s)).2;
          calls := calls s ++ [c]; logged := logged s |}.
Proof.
  unfold exec, mbind, M_bind, on_cs. by destruct (op (store s)).
Qed.

(** What a handler leaves when it ends in [writeResponse] after one call
    on the gateway. *)
Lemma after_call_writeResponse {A} (c : Call) (op : St → A * St)
    (k : A → M St unit) (st : St) (status : Z) (msg : string) :
  k (op st).1 = writeResponse status msg →
  let s' := exec (a ← on_cs c op; k a) (init st) in
  Code (w s') = status ∧ Body (w s') = sent status msg
  ∧ store s' = (op st).2 ∧ calls s' = [c].
Proof.
  intros Hk. unfold exec, mbind, M_bind, on_cs. simpl.
  destruct (op st) as [a st1] eqn:E. simpl in *. rewrite Hk.
  by apply (writeResponse_spec status msg
              {| w := NewRecorder; store := st1; calls := [c]; logged := [] |}).
Qed.

Lemma allowed_types_valid (c : string) :
  Valid (NewMimeMap allowed_types) c = true ↔ c ∈ allowed_types.
Proof.
  rewrite Valid_true_iff. unfold NewMimeMap.
  rewrite foldl_insert_lookup, lookup_empty.
  split; [intros [H|H]; [done | by destruct H] | by left].
Qed.

Lemma range_order_elem (m : MimeMap) (k : string) :
  k ∈ range_order m ↔ is_Some (m !! k).
Proof.
  rewrite range_order_keys, list_elem_of_fmap. split.
  - intros ([k' v] & -> & Hkv). apply elem_of_map_to_list in Hkv. eauto.
  - intros [v Hv]. exists (k, v). split; [done|].
    by apply elem_of_map_to_list.
Qed.

(** Every allowed type occurs in the list that the error message shows. *)
Lemma List_allowed_types (t : string) :
  t ∈ allowed_types → Contains (List (NewMimeMap allowed_types)) t.
Proof.
  intros Ht.
  assert (Hin : t ∈ range_order (NewMimeMap allowed_types)).
  { apply range_order_elem, Valid_true_iff, allowed_types_valid, Ht. }
  unfold List. unfold allowed_types in Ht.
  repeat (apply elem_of_cons in Ht as [->|Ht]);
    [ apply (List_of_Contains _ "image/pn" "g" eq_refl Hin)
    | apply (List_of_Contains _ "image/jpe" "g" eq_refl Hin)
    | apply (List_of_Contains _ "image/gi" "f" eq_refl Hin)
    | by apply not_elem_of_nil in Ht ].
Qed.

(** The create route, case by case: an unlisted type is rejected before
    any call; a listed type proceeds to [Create]. *)
Lemma createHandler_cases (r : Request) (st : St) (file : string)
    (handler : FileHeader) :
  FormFile r "myFile" = Ok (file, handler) →
  let mimetype := Header_Get (Header handler) "Content-Type" in
  let s' := serve createHandler r st in
  let cre := cs_Create (Filename handler) file st in
  if Valid (NewMimeMap allowed_types) mimetype then
    calls s' = [CallCreate (Filename handler) file] ∧ store s' = cre.2
    ∧ match cre.1 with
      | Some e =>
          Code (w s') = 500
          ∧ Body (w s') = error_body ("image couldn't be created: " +:+ e)
      | None => Code (w s') = 201 ∧ Body (w s') = ""
      end
  else Code (w s') = 500 ∧ calls s' = [] ∧ store s' = st.
Proof.
  intros Hfile mimetype s' cre.
  unfold s', serve, createHandler. rewrite Hfile. fold mimetype.
  destruct (Valid (NewMimeMap allowed_types) mimetype); simpl.
  - unfold cs_Create_call. rewrite run_on_cs. subst cre. simpl.
    destruct (cs_Create (Filename handler) file st) as [[e|] st1]; simpl;
      by repeat split.
  - by repeat split.
Qed.

(** The update route does not look at the header of the upload. *)
Lemma updateHandler_ignores_header (r1 r2 : Request) (st : St)
    (file : string) (h1 h2 : FileHeader) :
  FormFile r1 "myFile" = Ok (file, h1) →
  FormFile r2 "myFile" = Ok (file, h2) →
  Filename h1 = Filename h2 → Vars r1 = Vars r2 →
  serve updateHandler r1 st = serve updateHandler r2 st.
Proof.
  intros H1 H2 Hn Hv. unfold serve, updateHandler, Vars_get.
  by rewrite H1, H2, Hn, Hv.
Qed.

End HandlerFacts.

Section MemFacts.

Context {RT : GoRuntime}.

(** On the in-memory gateway, an update whose [Delete] succeeds and whose
    [Create] fails leaves no object under the id. *)
Lemma Mem_failed_replace_leaves_id_absent (b : Mem.Bucket) (r : Request)
    (file : string) (handler : FileHeader) :
  FormFile r "myFile" = Ok (file, handler) →
  (Mem.Delete (Vars_get r "id") b).1 = None →
  (Mem.Create (Filename handler) file (Mem.Delete (Vars_get r "id") b).2).1
    ≠ None →
  Mem.objects (store (serve updateHandler r b)) !! Vars_get r "id" = None.
Proof.
  intros Hfile Hdel Hcre.
  unfold serve, updateHandler. rewrite Hfile.
  unfold cs_Delete_call. rewrite run_on_cs. simpl.
  destruct (Mem.Delete (Vars_get r "id") b) as [e b1] eqn:Ed.
  simpl in Hdel, Hcre. subst e. simpl.
  unfold cs_Create_call. rewrite run_on_cs. simpl.
  assert (Hb1 : Mem.objects b1 !! Vars_get r "id" = None).
  { unfold Mem.Delete in Ed. destruct (Mem.next_fault b); [done|].
    destruct (Mem.objects b !! Vars_get r "id") eqn:El.
    - inversion Ed; subst. simpl. apply lookup_delete_eq.
    - destruct (Mem.absent_is_error b); [done|]. by inversion Ed; subst. }
  unfold Mem.Create in *. destruct (Mem.next_fault b1); simpl in *; [|done].
  exact Hb1.
Qed.

(** The scenarios of the spec on the in-memory gateway.  B: the list of
    an empty bucket is answered with 200 and an empty array. *)
Example scenario_B :
  let s' := serve listHandler (Mem.bare ∅) Mem.empty_bucket in
  Code (w s') = 200 ∧ Body (w s') = "[]".
Proof. by vm_compute. Qed.

(** D: after cat.png is created and then replaced through its id, the
    read returns the new bytes. *)
Example scenario_D :
  let s1 := serve createHandler (Mem.upload "cat.png" "B1" "image/png" ∅)
              Mem.empty_bucket in
  let s2 := serve updateHandler
              (Mem.upload "cat.png" "B2" "image/png" {["id" := "cat.png"]})
              (store s1) in
  let s3 := serve readHandler (Mem.bare {["id" := "cat.png"]}) (store s2) in
  Code (w s1) = 201 ∧ Code (w s2) = 200 ∧ Code (w s3) = 200
  ∧ Body (w s3)
    = Mem.Image_json {| Mem.ID := "cat.png"; Mem.DisplayName := "cat.png";
                        Mem.Content := "B2" |}.
Proof. by vm_compute. Qed.

(** E: the delete of a stored id removes it and is answered with 204;
    the message is logged, and no body goes with the 204. *)
Example scenario_E :
  let s1 := serve createHandler (Mem.upload "cat.png" "B1" "image/png" ∅)
              Mem.empty_bucket in
  let s2 := serve deleteHandler (Mem.bare {["id" := "cat.png"]}) (store s1) in
  Code (w s2) = 204 ∧ Body (w s2) = ""
  ∧ logged s2 = ["Webserver : " +:+ fmt_Sprintf0 (spec_delete_body "cat.png")]
  ∧ Mem.objects (store s2) !! "cat.png" = None.
Proof. by vm_compute. Qed.

End MemFacts.

Section JsonFacts.

Lemma json_chars_nil : json_chars "".
Proof. by intros t. Qed.

Lemma json_chars_app (u v : string) :
  json_chars u → json_chars v → json_chars (u +:+ v).
Proof. intros Hu Hv t. by rewrite append_assoc, Hu, Hv. Qed.

Lemma json_chars_cons (a : ascii) (v : string) :
  json_chars (String a "") → json_chars v → json_chars (String a v).
Proof.
  intros Ha Hv. change (String a v) with (String a "" +:+ v).
  by apply json_chars_app.
Qed.

(** A byte from space on that is neither the quote nor the backslash
    stands for itself. *)
Lemma json_chars_byte (a : ascii) :
  (0x20 ≤ byte_of a)%N → byte_of a ≠ 0x22%N → byte_of a ≠ 0x5C%N →
  json_chars (String a "").
Proof.
  intros H1 H2 H3 t. rewrite append_cons, append_nil_l.
  cbn [JsonSyntax.string_rest].
  destruct (N.eqb_spec (byte_of a) 34) as [?|_]; [done|].
  destruct (N.eqb_spec (byte_of a) 92) as [?|_]; [done|].
  destruct (N.ltb_spec (byte_of a) 32) as [?|_]; [lia|]. done.
Qed.

Lemma json_chars_safe (a : ascii) :
  Json.htmlSafeSet (byte_of a) = true → json_chars (String a "").
Proof.
  unfold Json.htmlSafeSet. intros H.
  repeat (apply andb_prop in H as [H ?]).
  repeat match goal with
         | H : negb _ = true |- _ => apply negb_true_iff, N.eqb_neq in H
         end.
  apply N.leb_le in H. by apply json_chars_byte.
Qed.

Lemma json_chars_high (u : string) :
  high_bytes u = true → json_chars u.
Proof.
  induction u as [|a u IH]; [intros _; apply json_chars_nil|].
  cbn [high_bytes]. intros [Ha Hu]%andb_prop. apply N.leb_le in Ha.
  apply json_chars_cons; [|by apply IH].
  apply json_chars_byte; lia.
Qed.

(** Every escape that [appendString] writes for an ASCII byte is a
    complete escape of a JSON string. *)
Lemma json_chars_escape (a : ascii) :
  (byte_of a <? Utf8.RuneSelf)%N = true →
  Json.htmlSafeSet (byte_of a) = false →
  json_chars (Json.escape_ascii a).
Proof.
  destruct a as [[] [] [] [] [] [] [] []]; intros H1 H2;
    try (vm_compute in H1; discriminate);
    try (vm_compute in H2; discriminate);
    intros t; reflexivity.
Qed.

Lemma first_high (b : N) :
  (0x80 ≤ b)%N →
  Utf8.first b = Utf8.xx ∨ Utf8.first b = Utf8.s1 ∨ Utf8.first b = Utf8.s2
  ∨ Utf8.first b = Utf8.s3 ∨ Utf8.first b = Utf8.s4 ∨ Utf8.first b = Utf8.s5
  ∨ Utf8.first b = Utf8.s6 ∨ Utf8.first b = Utf8.s7.
Proof.
  intros H. unfold Utf8.first.
  destruct (N.ltb_spec b 0x80); [lia|].
  repeat match goal with
         | |- context [if ?c then _ else _] => destruct c
         end; tauto.
Qed.

Lemma decode_high (a : ascii) (r : string) (c : N) (size : nat) :
  (0x80 ≤ byte_of a)%N →
  Utf8.DecodeRuneInString (Json.take_bytes Utf8.UTFMax (String a r)) = (c, size) →
  ((c =? Utf8.RuneError)%N && (size =? 1)%nat) = false →
  high_bytes (Json.take_bytes size (String a r)) = true.
Proof.
  intros Ha Hdec Herr. unfold Utf8.UTFMax in Hdec.
  destruct r as [|a1 [|a2 [|a3 r3]]]; cbn [Json.take_bytes] in Hdec;
    unfold Utf8.DecodeRuneInString in Hdec;
    cbn [String.length Utf8.at_ String.get] in Hdec;
    destruct (first_high _ Ha) as [Hx|[Hx|[Hx|[Hx|[Hx|[Hx|[Hx|Hx]]]]]]];
    rewrite Hx in Hdec; clear Hx;
    repeat match type of Hdec with
           | context [if ?c then _ else _] =>
               let E := fresh "E" in
               destruct c eqn:E; try (vm_compute in E; discriminate E)
           end;
    injection Hdec as <- <-;
    try (vm_compute in Herr; discriminate Herr);
    cbn [Json.take_bytes high_bytes];
    repeat match goal with
           | E : (_ || _) = false |- _ =>
               apply orb_false_elim in E as [? ?]
           | E : (byte_of _ <? ?y)%N = false |- _ =>
               apply N.ltb_ge in E;
               let v := eval vm_compute in y in change y with v in E
           | E : (_ <? byte_of _)%N = false |- _ => clear E
           end;
    repeat (apply andb_true_intro; split); try reflexivity;
    apply N.leb_le; lia.
Qed.

Lemma appendString_loop_json_chars (fuel : nat) (s : string) :
  json_chars (Json.appendString_loop fuel s).
Proof.
  revert s. induction fuel as [|fuel IH]; intros s; [apply json_chars_nil|].
  destruct s as [|a r]; [apply json_chars_nil|].
  cbn [Json.appendString_loop].
  destruct (byte_of a <? Utf8.RuneSelf)%N eqn:Ea.
  - destruct (Json.htmlSafeSet (byte_of a)) eqn:Es.
    + apply json_chars_cons; [by apply json_chars_safe | apply IH].
    + apply json_chars_app; [by apply json_chars_escape | apply IH].
  - apply N.ltb_ge in Ea. change Utf8.RuneSelf with 0x80%N in Ea.
    destruct (Utf8.DecodeRuneInString (Json.take_bytes Utf8.UTFMax (String a r)))
      as [c size] eqn:Ed.
    destruct ((c =? Utf8.RuneError)%N && (size =? 1)%nat) eqn:Eerr.
    + apply json_chars_app; [by intros t | apply IH].
    + destruct ((c =? 8232)%N || (c =? 8233)%N) eqn:Els.
      * intros t. apply orb_prop in Els as [->%N.eqb_eq | ->%N.eqb_eq];
          rewrite !append_cons, append_nil_l;
          cbn [JsonSyntax.string_rest]; simpl; apply IH.
      * apply json_chars_app; [|apply IH].
        by apply json_chars_high, (decode_high a r c).
Qed.

End JsonFacts.

Section Base64Facts.

Lemma sextet_of_char_of (p : Base64.sextet) :
  Base64.sextet_of_char (Base64.char_of_sextet p) = Some p.
Proof. destruct p as [[] [] [] [] [] []]; reflexivity. Qed.

Lemma char_of_sextet_not_pad (p : Base64.sextet) :
  Ascii.eqb (Base64.char_of_sextet p) Base64.pad = false.
Proof. destruct p as [[] [] [] [] [] []]; reflexivity. Qed.

Lemma char_of_sextet_not_quote (p : Base64.sextet) :
  (byte_of (Base64.char_of_sextet p) =? 34)%N = false.
Proof. destruct p as [[] [] [] [] [] []]; reflexivity. Qed.

Lemma string_ind3 (P : string → Prop) :
  P "" →
  (∀ a, P (String a "")) →
  (∀ a b, P (String a (String b ""))) →
  (∀ a b c r, P r → P (String a (String b (String c r)))) →
  ∀ s, P s.
Proof.
  intros H0 H1 H2 H3. fix IH 1. intros [|a [|b [|c r]]].
  - exact H0.
  - apply H1.
  - apply H2.
  - apply H3, IH.
Qed.

(** Decoding what was encoded gives the bytes back. *)
Lemma decode_encode (s : string) :
  Base64.decode (Base64.encode s) = Some s.
Proof.
  induction s as [|a|a b|a b c r IH] using string_ind3.
  - reflexivity.
  - destruct a as [x0 x1 x2 x3 x4 x5 x6 x7].
    cbn [Base64.encode Base64.decode].
    rewrite !sextet_of_char_of.
    change (Ascii.eqb Base64.pad Base64.pad) with true. reflexivity.
  - destruct a as [x0 x1 x2 x3 x4 x5 x6 x7], b as [y0 y1 y2 y3 y4 y5 y6 y7].
    cbn [Base64.encode Base64.decode].
    rewrite !sextet_of_char_of, char_of_sextet_not_pad.
    change (Ascii.eqb Base64.pad Base64.pad) with true. reflexivity.
  - destruct a as [x0 x1 x2 x3 x4 x5 x6 x7], b as [y0 y1 y2 y3 y4 y5 y6 y7],
             c as [z0 z1 z2 z3 z4 z5 z6 z7].
    cbn [Base64.encode Base64.decode].
    rewrite !sextet_of_char_of, !char_of_sextet_not_pad.
    fold Base64.decode. rewrite IH. reflexivity.
Qed.

(** The text of an encoding holds no quote. *)
Lemma until_quote_encode (s t : string) :
  until_quote (Base64.encode s +:+ dq +:+ t) = Some (Base64.encode s, t).
Proof.
  induction s as [|a|a b|a b c r IH] using string_ind3.
  - reflexivity.
  - destruct a as [x0 x1 x2 x3 x4 x5 x6 x7].
    cbn [Base64.encode]. rewrite !append_cons, append_nil_l.
    cbn [until_quote]. rewrite !char_of_sextet_not_quote. reflexivity.
  - destruct a as [x0 x1 x2 x3 x4 x5 x6 x7], b as [y0 y1 y2 y3 y4 y5 y6 y7].
    cbn [Base64.encode]. rewrite !append_cons, append_nil_l.
    cbn [until_quote]. rewrite !char_of_sextet_not_quote. reflexivity.
  - destruct a as [x0 x1 x2 x3 x4 x5 x6 x7], b as [y0 y1 y2 y3 y4 y5 y6 y7],
             c as [z0 z1 z2 z3 z4 z5 z6 z7].
    cbn [Base64.encode]. rewrite !append_cons.
    cbn [until_quote]. rewrite !char_of_sextet_not_quote.
    fold until_quote. rewrite IH. reflexivity.
Qed.

End Base64Facts.

Section ReadBackFacts.

Lemma length_append (a b : string) :
  String.length (a +:+ b) = (String.length a + String.length b)%nat.
Proof.
  induction a as [|x a IH]; [done|]. rewrite append_cons. simpl. by rewrite IH.
Qed.

Lemma starts_with_dq (r : string) :
  JsonSyntax.starts_with 34 (dq +:+ r) = Some r.
Proof. reflexivity. Qed.

Lemma string_rest_dq (r : string) :
  JsonSyntax.string_rest (dq +:+ r) = Some r.
Proof. reflexivity. Qed.

(** A member whose key is not content and whose value was written by
    [appendString] is passed over. *)
Lemma content_member_skip (fuel : nat) (key x rest : string) :
  (∀ t, until_quote (key +:+ dq +:+ t) = Some (key, t)) →
  String.eqb key "content" = false →
  content_member (S fuel)
    (dq +:+ key +:+ dq +:+ ":" +:+ Json.appendString x +:+ "," +:+ rest)
  = content_member fuel rest.
Proof.
  intros Hkey Hne. cbn [content_member].
  rewrite starts_with_dq, Hkey.
  change (JsonSyntax.starts_with 58 (":" +:+ Json.appendString x +:+ "," +:+ rest))
    with (Some (Json.appendString x +:+ "," +:+ rest)).
  cbv iota beta. unfold Json.appendString. rewrite !append_assoc.
  rewrite starts_with_dq, Hne.
  rewrite appendString_loop_json_chars, string_rest_dq.
  reflexivity.
Qed.

Lemma content_member_found (fuel : nat) (c rest : string) :
  content_member (S fuel)
    (dq +:+ "content" +:+ dq +:+ ":" +:+ dq +:+ Base64.encode c +:+ dq +:+ rest)
  = Some c.
Proof.
  cbn [content_member]. rewrite starts_with_dq.
  change (until_quote ("content" +:+ dq +:+ ":" +:+ dq +:+ Base64.encode c +:+ dq +:+ rest))
    with (Some ("content", ":" +:+ dq +:+ Base64.encode c +:+ dq +:+ rest)).
  cbv iota beta.
  change (JsonSyntax.starts_with 58 (":" +:+ dq +:+ Base64.encode c +:+ dq +:+ rest))
    with (Some (dq +:+ Base64.encode c +:+ dq +:+ rest)).
  cbv iota beta. rewrite starts_with_dq.
  change (String.eqb "content" "content") with true. cbv iota.
  by rewrite until_quote_encode, decode_encode.
Qed.

(** The content of an image is read back from its JSON object. *)
Lemma content_of_Image_json (i : Mem.Image) :
  content_of_body (Mem.Image_json i) = Some (Mem.Content i).
Proof.
  unfold content_of_body.
  destruct (String.length (Mem.Image_json i)) as [|[|[|fuel]]] eqn:Elen;
    try (unfold Mem.Image_json in Elen; rewrite !length_append in Elen;
         simpl in Elen; lia).
  unfold Mem.Image_json.
  change (JsonSyntax.starts_with 123
            ("{" +:+ dq +:+ "id" +:+ dq +:+ ":" +:+ Json.appendString (Mem.ID i)
             +:+ "," +:+ dq +:+ "name" +:+ dq +:+ ":"
             +:+ Json.appendString (Mem.DisplayName i)
             +:+ "," +:+ dq +:+ "content" +:+ dq +:+ ":"
             +:+ dq +:+ Base64.encode (Mem.Content i) +:+ dq +:+ "}"))
    with (Some (dq +:+ "id" +:+ dq +:+ ":" +:+ Json.appendString (Mem.ID i)
             +:+ "," +:+ dq +:+ "name" +:+ dq +:+ ":"
             +:+ Json.appendString (Mem.DisplayName i)
             +:+ "," +:+ dq +:+ "content" +:+ dq +:+ ":"
             +:+ dq +:+ Base64.encode (Mem.Content i) +:+ dq +:+ "}")).
  cbv iota beta.
  rewrite (content_member_skip _ "id") by done.
  rewrite (content_member_skip _ "name") by done.
  apply content_member_found.
Qed.

End ReadBackFacts.

(** * The claims *)

(** C1: an upload to the create route whose Content-Type is not one of
    image/png, image/jpeg, image/gif is answered with status 500 and a body
    that holds the words invalid image type, the rendered allow-list (in
    which every allowed type occurs) and got : followed by the type; no
    call is made on the storage gateway, so nothing is created. *)
Theorem C1_create_rejects_unlisted_type
  {St Obj Image : Type} {CS : CloudStorage St Obj}
  {IM : ImageMapper Obj Image} {JI : JSONProducer Image}
  {JIs : JSONProducer (list Image)} {RT : GoRuntime}
  (r : Request) (st : St) (file : string) (handler : FileHeader) :
  FormFile r "myFile" = Ok (file, handler) →
  Header_Get (Header handler) "Content-Type" ∉ allowed_types →
  let mimetype := Header_Get (Header handler) "Content-Type" in
  let s' := serve createHandler r st in
  Code (w s') = 500
  ∧ Contains (Body (w s')) "invalid image type"
  ∧ Contains (Body (w s')) (List (NewMimeMap allowed_types))
  ∧ (∀ t, t ∈ allowed_types → Contains (List (NewMimeMap allowed_types)) t)
  ∧ Contains (Body (w s')) ("got : " +:+ mimetype)
  ∧ calls s' = [] ∧ store s' = st.
Proof.
  intros Hfile Hnot mimetype s'.
  assert (Hv : Valid (NewMimeMap allowed_types) mimetype = false).
  { destruct (Valid _ mimetype) eqn:E; [|done].
    by apply allowed_types_valid in E. }
  assert (Hs' : s' = exec (writeErrorMsg
      ("invalid image type, want one of " +:+ List (NewMimeMap allowed_types)
       +:+ " got : " +:+ mimetype)) (init st)).
  { unfold s', serve, createHandler. rewrite Hfile. fold mimetype.
    by rewrite Hv. }
  destruct (writeErrorMsg_spec
    ("invalid image type, want one of " +:+ List (NewMimeMap allowed_types)
     +:+ " got : " +:+ mimetype) (init st) (init_fresh st))
    as (Hc & Hb & Hst & Hcl).
  rewrite <- Hs' in *. rewrite Hb. repeat split; try done.
  - exists ("{" +:+ dq +:+ "error" +:+ dq +:+ ":" +:+ dq),
      (", want one of " +:+ List (NewMimeMap allowed_types)
       +:+ " got : " +:+ mimetype +:+ dq +:+ "}").
    unfold error_body. by rewrite !append_assoc.
  - exists ("{" +:+ dq +:+ "error" +:+ dq +:+ ":" +:+ dq
            +:+ "invalid image type, want one of "),
      (" got : " +:+ mimetype +:+ dq +:+ "}").
    unfold error_body. by rewrite !append_assoc.
  - apply List_allowed_types.
  - exists ("{" +:+ dq +:+ "error" +:+ dq +:+ ":" +:+ dq
            +:+ "invalid image type, want one of "
            +:+ List (NewMimeMap allowed_types) +:+ " "),
      (dq +:+ "}").
    unfold error_body. by rewrite !append_assoc.
Qed.

(** C1 at an upload of type image/bmp to an empty bucket. *)
Lemma C1_witness :
  let r := Mem.upload "cat.bmp" "BM" "image/bmp" ∅ in
  let s' := serve createHandler r Mem.empty_bucket in
  ("image/bmp" ∉ allowed_types)
  ∧ Code (w s') = 500
  ∧ Contains (Body (w s')) "got : image/bmp"
  ∧ calls s' = [].
Proof.
  intros r s'.
  assert (Hf : FormFile r "myFile"
               = Ok ("BM", {| Filename := "cat.bmp";
                              Header := {["Content-Type" := ["image/bmp"]]} |}))
    by reflexivity.
  assert (Hn : "image/bmp" ∉ allowed_types)
    by (apply (bool_decide_unpack _); vm_compute; exact I).
  destruct (C1_create_rejects_unlisted_type r Mem.empty_bucket _ _ Hf Hn)
    as (H1 & _ & _ & _ & H5 & H6 & _).
  by repeat split.
Defined.

(** C2: [NewMimeMap(s).Valid(c)] is true exactly when [c] is (byte for byte)
    an element of [s]; on the empty list every candidate is invalid. *)
Theorem C2_valid_iff_member (s : list string) (c : string) :
  (Valid (NewMimeMap s) c = true ↔ c ∈ s)
  ∧ Valid (NewMimeMap []) c = false.
Proof.
  split; [|reflexivity].
  rewrite Valid_true_iff. unfold NewMimeMap.
  rewrite foldl_insert_lookup, lookup_empty.
  split; [intros [H|H]; [done | by destruct H] | by left].
Qed.

(** C3: when [Read] returns no descriptor and no error, and the image
    mapper maps the empty sequence to the empty sequence, the read route
    answers 204 with an empty body, which is not a JSON text. *)
Theorem C3_read_of_nothing_is_204
  {St Obj Image : Type} {CS : CloudStorage St Obj}
  {IM : ImageMapper Obj Image} {JI : JSONProducer Image}
  {JIs : JSONProducer (list Image)} {RT : GoRuntime}
  (r : Request) (st st' : St) :
  cs_Read (Vars_get r "id") st = (Ok [], st') →
  NewImages [] = Ok [] →
  let s' := serve readHandler r st in
  Code (w s') = 204 ∧ Body (w s') = ""
  ∧ JsonSyntax.is_json (Body (w s')) = false
  ∧ calls s' = [CallRead (Vars_get r "id")].
Proof.
  intros Hread Hmap s'.
  destruct (after_call_writeResponse (CallRead (Vars_get r "id"))
    (cs_Read (Vars_get r "id"))
    (fun fs => match fs with
       | Err err =>
           writeErrorMsg ("failed to read files " +:+ Vars_get r "id"
                          +:+ ": " +:+ err)
       | Ok fs =>
           match NewImages fs with
           | Err err =>
               writeErrorMsg
                 ("failed to convert files to images images: " +:+ err)
           | Ok is_ =>
               match is_ with
               | [] => writeResponse StatusNoContent ""
               | is0 :: _ => writeJSON is0 StatusOK
               end
           end
       end) st StatusNoContent "") as (Hc & Hb & _ & Hcl).
  { rewrite Hread. simpl. by rewrite Hmap. }
  assert (Hb' : Body (w s') = "") by exact Hb.
  rewrite Hb'. repeat split; [exact Hc | exact Hcl].
Qed.

(** C3 at the read of an id on an empty bucket. *)
Lemma C3_witness :
  let r := Mem.bare {["id" := "ghost"]} in
  let s' := serve readHandler r Mem.empty_bucket in
  cs_Read "ghost" Mem.empty_bucket = (Ok [], Mem.empty_bucket)
  ∧ Code (w s') = 204 ∧ Body (w s') = "".
Proof.
  intros r s'.
  assert (Hr : cs_Read (Vars_get r "id") Mem.empty_bucket
               = (Ok [], Mem.empty_bucket)) by reflexivity.
  assert (Hm : NewImages (Obj := Mem.Object) [] = Ok []) by reflexivity.
  destruct (C3_read_of_nothing_is_204 r Mem.empty_bucket _ Hr Hm)
    as (H1 & H2 & _).
  by repeat split.
Defined.

(** C4: the delete route does not answer with the body of the claim.
    When [Delete] returns no error the handler writes status 204 and then
    hands the JSON of the message to [Write]; the server's writer sends no
    body with a 204, so the answer is 204 with an empty body for every id,
    and the message only reaches the log.  When [Delete] returns an error
    the answer is 500 with the error body. *)
Theorem C4_delete_answer_has_no_body
  {St Obj Image : Type} {CS : CloudStorage St Obj}
  {IM : ImageMapper Obj Image} {JI : JSONProducer Image}
  {JIs : JSONProducer (list Image)} {RT : GoRuntime}
  (r : Request) (st : St) :
  let id := Vars_get r "id" in
  let s' := serve deleteHandler r st in
  match (cs_Delete id st).1 with
  | None =>
      Code (w s') = 204
      ∧ Body (w s') = ""
      ∧ Body (w s') ≠ spec_delete_body id
      ∧ logged s'
        = ["Webserver : " +:+ fmt_Sprintf0 (Message_json (deleted_msg id))]
  | Some err =>
      Code (w s') = 500 ∧ Body (w s') = error_body err
  end.
Proof.
  intros id s'. unfold s', serve, deleteHandler, cs_Delete_call. fold id.
  rewrite run_on_cs. simpl.
  destruct ((cs_Delete id st).1) as [err|]; simpl.
  - by split.
  - repeat split. intros H. discriminate H.
Qed.

(** C5: with a file field at hand the update route first calls
    [Delete(id)]; if that fails it answers 500 and makes no further call;
    otherwise it calls [Create] with the name and content of the upload on
    the store [Delete] left.  If [Create] fails the answer is 500 and the
    store is left as the failed [Create] left it, with no further call that
    could restore the deleted object; if it succeeds the answer is 200
    with an empty body. *)
Theorem C5_update_deletes_then_creates
  {St Obj Image : Type} {CS : CloudStorage St Obj}
  {IM : ImageMapper Obj Image} {JI : JSONProducer Image}
  {JIs : JSONProducer (list Image)} {RT : GoRuntime}
  (r : Request) (st : St) (file : string) (handler : FileHeader) :
  FormFile r "myFile" = Ok (file, handler) →
  let id := Vars_get r "id" in
  let s' := serve updateHandler r st in
  let del := cs_Delete id st in
  let cre := cs_Create (Filename handler) file del.2 in
  match del.1, cre.1 with
  | Some e, _ =>
      Code (w s') = 500
      ∧ Body (w s') = error_body ("error replacing file: " +:+ e)
      ∧ calls s' = [CallDelete id] ∧ store s' = del.2
  | None, Some e =>
      Code (w s') = 500
      ∧ Body (w s') = error_body ("image couldn't be created: " +:+ e)
      ∧ calls s' = [CallDelete id; CallCreate (Filename handler) file]
      ∧ store s' = cre.2
  | None, None =>
      Code (w s') = 200 ∧ Body (w s') = ""
      ∧ calls s' = [CallDelete id; CallCreate (Filename handler) file]
      ∧ store s' = cre.2
  end.
Proof.
  intros Hfile id s' del cre.
  unfold s', serve, updateHandler. rewrite Hfile. fold id.
  unfold cs_Delete_call. rewrite run_on_cs. subst del cre. simpl.
  destruct (cs_Delete id st) as [[e|] st1]; simpl.
  - by repeat split.
  - unfold cs_Create_call. rewrite run_on_cs. simpl.
    destruct (cs_Create (Filename handler) file st1) as [[e|] st2]; simpl;
      by repeat split.
Qed.

(** C5 at an update whose [Delete] succeeds and whose [Create] the backend
    fails: the answer is 500 and the id is absent afterwards. *)
Lemma C5_witness :
  let b := {| Mem.objects :=
                {["dog.png" := {| Mem.Name := "dog.png"; Mem.Data := "OLD" |}]};
              Mem.faults := [None; Some "backend unavailable"];
              Mem.absent_is_error := true |} in
  let r := Mem.upload "dog.png" "NEW" "image/png" {["id" := "dog.png"]} in
  let s' := serve updateHandler r b in
  Code (w s') = 500
  ∧ Body (w s')
    = error_body "image couldn't be created: backend unavailable"
  ∧ calls s' = [CallDelete "dog.png"; CallCreate "dog.png" "NEW"]
  ∧ Mem.objects (store s') !! "dog.png" = None.
Proof.
  intros b r s'.
  assert (Hf : FormFile r "myFile"
               = Ok ("NEW", {| Filename := "dog.png";
                               Header := {["Content-Type" := ["image/png"]]} |}))
    by reflexivity.
  pose proof (C5_update_deletes_then_creates r b _ _ Hf) as H.
  vm_compute in H. destruct H as (H1 & H2 & H3 & H4).
  split; [exact H1|]. split; [exact H2|]. split; [exact H3|].
  vm_compute. reflexivity.
Defined.

(** C6: an update whose file has the type text/html, which the validator
    refuses, is not rejected: the update route calls [Delete] and [Create]
    and answers 200, and the file is stored, while the create route
    answers the same upload with 500 and stores nothing. *)
Theorem C6_update_stores_unlisted_type :
  let b := Mem.set_objects
             {["cat.png" := {| Mem.Name := "cat.png"; Mem.Data := "PNG" |}]}
             Mem.empty_bucket in
  let r := Mem.upload "x.html" "<html>" "text/html" {["id" := "cat.png"]} in
  let s' := serve updateHandler r b in
  Valid (NewMimeMap allowed_types) "text/html" = false
  ∧ Code (w s') = 200 ∧ Body (w s') = ""
  ∧ calls s' = [CallDelete "cat.png"; CallCreate "x.html" "<html>"]
  ∧ Mem.objects (store s') !! "x.html"
    = Some {| Mem.Name := "x.html"; Mem.Data := "<html>" |}
  ∧ Code (w (serve createHandler r b)) = 500
  ∧ calls (serve createHandler r b) = [].
Proof. vm_compute. by repeat split. Qed.

(** C7: an upload whose Content-Type holds a double quote is answered
    with 500 and a body in the shape of the error object, but the quote is
    written as it is: the body is not a JSON text, whatever fuel the
    recogniser is given, while the same text written by [json.Marshal]
    is one. *)
Theorem C7_error_body_not_json :
  let ctype := "image/" +:+ dq +:+ "png" +:+ dq in
  let r := Mem.upload "cat.png" "PNG" ctype ∅ in
  let s' := serve createHandler r Mem.empty_bucket in
  Code (w s') = 500
  ∧ Body (w s')
    = error_body ("invalid image type, want one of "
                  +:+ "image/gif, image/jpeg, image/png got : " +:+ ctype)
  ∧ JsonSyntax.is_json (Body (w s')) = false
  ∧ (∀ fuel, JsonSyntax.parse fuel JsonSyntax.AValue (Body (w s')) = None)
  ∧ JsonSyntax.is_json
      ("{" +:+ dq +:+ "error" +:+ dq +:+ ":" +:+ Json.appendString ctype +:+ "}")
    = true.
Proof.
  split; [by vm_compute|]. split; [by vm_compute|]. split; [by vm_compute|].
  split; [|by vm_compute].
  intros [|[|[|fuel]]]; by vm_compute.
Qed.

(** C8: on the in-memory gateway, an upload that the create route
    answers with 201 is read back by the read route under the name of the
    file: unless the backend fails the read, the answer is 200 with the
    JSON object of the image of that name, and the content that a consumer
    decodes from the body is, byte for byte, the uploaded content. *)
Theorem C8_create_then_read {RT : GoRuntime}
  (b : Mem.Bucket) (r r' : Request) (content : string) (handler : FileHeader) :
  FormFile r "myFile" = Ok (content, handler) →
  Code (w (serve createHandler r b)) = 201 →
  Vars_get r' "id" = Filename handler →
  Mem.next_fault (store (serve createHandler r b)) = None →
  let s2 := serve readHandler r' (store (serve createHandler r b)) in
  Code (w s2) = 200
  ∧ Body (w s2)
    = Mem.Image_json {| Mem.ID := Filename handler;
                        Mem.DisplayName := Filename handler;
                        Mem.Content := content |}
  ∧ content_of_body (Body (w s2)) = Some content.
Proof.
  intros Hfile H201 Hid Hnf s2.
  pose proof (createHandler_cases r b content handler Hfile) as Hc.
  simpl in Hc.
  destruct (Valid (NewMimeMap allowed_types)
              (Header_Get (Header handler) "Content-Type"));
    [|destruct Hc as [Hc _]; rewrite Hc in H201; discriminate].
  destruct Hc as (_ & Hst & Hc).
  destruct ((Mem.Create (Filename handler) content b).1) as [e|] eqn:Ecre;
    [destruct Hc as [Hc _]; rewrite Hc in H201; discriminate|].
  assert (Hobj : Mem.objects (store (serve createHandler r b))
                   !! Filename handler
                 = Some {| Mem.Name := Filename handler;
                           Mem.Data := content |}).
  { rewrite Hst. unfold Mem.Create in *.
    destruct (Mem.next_fault b); [discriminate|]. simpl.
    apply lookup_insert_eq. }
  assert (Hbody : Code (w s2) = 200
    ∧ Body (w s2)
      = Mem.Image_json {| Mem.ID := Filename handler;
                          Mem.DisplayName := Filename handler;
                          Mem.Content := content |}).
  { subst s2. clear Hst.
    generalize dependent (store (serve createHandler r b)).
    intros b1 Hnf Hobj.
    unfold serve, readHandler, cs_Read_call. rewrite run_on_cs. simpl.
    unfold Mem.Read. rewrite Hnf, Hid, Hobj. simpl. by split. }
  destruct Hbody as [Hcode Hbody].
  split; [exact Hcode|]. split; [exact Hbody|].
  rewrite Hbody. apply content_of_Image_json.
Qed.

(** C8 at the upload of cat.png, whose first byte is 0x89, to an empty
    bucket. *)
Lemma C8_witness :
  let png := String "137" "PNG" in
  let r := Mem.upload "cat.png" png "image/png" ∅ in
  let r' := Mem.bare {["id" := "cat.png"]} in
  let s1 := serve createHandler r Mem.empty_bucket in
  let s2 := serve readHandler r' (store s1) in
  Code (w s1) = 201
  ∧ Code (w s2) = 200
  ∧ content_of_body (Body (w s2)) = Some png.
Proof.
  intros png r r' s1 s2.
  assert (Hf : FormFile r "myFile"
               = Ok (png,
                     {| Filename := "cat.png";
                        Header := {["Content-Type" := ["image/png"]]} |}))
    by reflexivity.
  assert (H201 : Code (w (serve createHandler r Mem.empty_bucket)) = 201)
    by (vm_compute; reflexivity).
  assert (Hid : Vars_get r' "id" = "cat.png") by reflexivity.
  assert (Hnf : Mem.next_fault (store (serve createHandler r Mem.empty_bucket))
                = None) by (vm_compute; reflexivity).
  destruct (C8_create_then_read Mem.empty_bucket r r' _ _ Hf H201 Hid Hnf)
    as (H1 & _ & H3).
  split; [exact H201|]. split; [exact H1|exact H3].
Defined.

(** C9 (amended): the delete route has no path of its own for an id that
    is not stored.  It makes the one call [Delete(id)] and its answer
    follows what that call returns: two stores on which [Delete] returns
    the same, such as one that holds the id and one that does not when the
    backend does not report the absence, get the same answer, with status
    204 when no error is returned, and with status 500 and the error body
    when one is. *)
Theorem C9_delete_answer_follows_backend
  {St Obj Image : Type} {CS : CloudStorage St Obj}
  {IM : ImageMapper Obj Image} {JI : JSONProducer Image}
  {JIs : JSONProducer (list Image)} {RT : GoRuntime}
  (r : Request) (st1 st2 : St) :
  (cs_Delete (Vars_get r "id") st1).1 = (cs_Delete (Vars_get r "id") st2).1 →
  let id := Vars_get r "id" in
  let s1 := serve deleteHandler r st1 in
  let s2 := serve deleteHandler r st2 in
  w s1 = w s2
  ∧ calls s1 = [CallDelete id] ∧ calls s2 = [CallDelete id]
  ∧ match (cs_Delete id st2).1 with
    | None => Code (w s2) = 204
    | Some err => Code (w s2) = 500 ∧ Body (w s2) = error_body err
    end.
Proof.
  intros Hsame id s1 s2. fold id in Hsame.
  assert (H1 : s1 = exec
    (match (cs_Delete id st1).1 with
     | Some err => writeErrorMsg err
     | None => writeJSON (deleted_msg id) StatusNoContent
     end)
    {| w := NewRecorder; store := (cs_Delete id st1).2;
       calls := [CallDelete id]; logged := [] |}).
  { unfold s1, serve, deleteHandler, cs_Delete_call. by rewrite run_on_cs. }
  assert (H2 : s2 = exec
    (match (cs_Delete id st2).1 with
     | Some err => writeErrorMsg err
     | None => writeJSON (deleted_msg id) StatusNoContent
     end)
    {| w := NewRecorder; store := (cs_Delete id st2).2;
       calls := [CallDelete id]; logged := [] |}).
  { unfold s2, serve, deleteHandler, cs_Delete_call. by rewrite run_on_cs. }
  rewrite Hsame in H1. rewrite H1, H2.
  destruct ((cs_Delete id st2).1) as [err|].
  - split; [by apply writeResponse_writer|].
    split; [by apply (writeErrorMsg_spec err)|].
    split; [by apply (writeErrorMsg_spec err)|].
    split; by apply (writeErrorMsg_spec err).
  - split; [by apply writeResponse_writer|].
    split; [by apply (writeResponse_spec StatusNoContent)|].
    split; by apply (writeResponse_spec StatusNoContent).
Qed.

(** C9 as stated fails on a backend that reports the deletion of an
    absent object as an error: the delete of an id that is not stored is
    answered with 500 and the error body. *)
Lemma C9_counterexample :
  let r := Mem.bare {["id" := "ghost"]} in
  Mem.objects Mem.empty_bucket !! Vars_get r "id" = None
  ∧ Code (w (serve deleteHandler r Mem.empty_bucket)) = 500
  ∧ Body (w (serve deleteHandler r Mem.empty_bucket))
    = error_body "storage: object doesn't exist".
Proof. vm_compute. by repeat split. Qed.

(** C9 at a backend that does not report the absence: the delete of a
    stored id and of an absent id get the same answer, 204. *)
Lemma C9_witness :
  let lenient := {| Mem.objects := ∅; Mem.faults := [];
                    Mem.absent_is_error := false |} in
  let holding := Mem.set_objects
                   {["cat.png" := {| Mem.Name := "cat.png"; Mem.Data := "PNG" |}]}
                   lenient in
  let r := Mem.bare {["id" := "cat.png"]} in
  (cs_Delete "cat.png" holding).1 = (cs_Delete "cat.png" lenient).1
  ∧ w (serve deleteHandler r holding) = w (serve deleteHandler r lenient)
  ∧ Code (w (serve deleteHandler r lenient)) = 204.
Proof.
  intros lenient holding r.
  assert (Hs : (cs_Delete (Vars_get r "id") holding).1
               = (cs_Delete (Vars_get r "id") lenient).1)
    by (vm_compute; reflexivity).
  destruct (C9_delete_answer_follows_backend r holding lenient Hs)
    as (H1 & _ & _ & H4).
  split; [exact Hs|]. split; [exact H1|].
  vm_compute in H4. by destruct H4.
Defined.

(** C10: the create and update routes drop what [ParseMultipartForm]
    returns, so their answer is the same whatever it is.  When the file
    field cannot be extracted both answer 500 with the message error
    retrieving file followed by the cause, make no call on the storage
    gateway and leave the store as it was. *)
Theorem C10_rejected_at_file_extraction
  {St Obj Image : Type} {CS : CloudStorage St Obj}
  {IM : ImageMapper Obj Image} {JI : JSONProducer Image}
  {JIs : JSONProducer (list Image)} {RT : GoRuntime}
  (r : Request) (st : St) (e : error) :
  FormFile r "myFile" = Err e →
  let sc := serve createHandler r st in
  let su := serve updateHandler r st in
  (Code (w sc) = 500
   ∧ Body (w sc) = error_body ("error retrieving file: " +:+ e)
   ∧ Contains (Body (w sc)) "error retrieving file"
   ∧ calls sc = [] ∧ store sc = st)
  ∧ (Code (w su) = 500
     ∧ Body (w su) = error_body ("error retrieving file: " +:+ e)
     ∧ Contains (Body (w su)) "error retrieving file"
     ∧ calls su = [] ∧ store su = st)
  ∧ (∀ p, serve createHandler (with_parse r p) st = sc
          ∧ serve updateHandler (with_parse r p) st = su).
Proof.
  intros Hfile sc su.
  assert (Hc : Contains (error_body ("error retrieving file: " +:+ e))
                        "error retrieving file").
  { exists ("{" +:+ dq +:+ "error" +:+ dq +:+ ":" +:+ dq),
      (": " +:+ e +:+ dq +:+ "}").
    unfold error_body. by rewrite !append_assoc. }
  assert (Hsc : sc = exec (writeErrorMsg ("error retrieving file: " +:+ e))
                          (init st)).
  { unfold sc, serve, createHandler. by rewrite Hfile. }
  assert (Hsu : su = exec (writeErrorMsg ("error retrieving file: " +:+ e))
                          (init st)).
  { unfold su, serve, updateHandler. by rewrite Hfile. }
  destruct (writeErrorMsg_spec ("error retrieving file: " +:+ e) (init st)
              (init_fresh st)) as (H1 & H2 & H3 & H4).
  rewrite <- Hsc in H1, H2, H3, H4.
  split; [|split].
  - rewrite H2. by repeat split.
  - rewrite Hsu, <- Hsc, H2. by repeat split.
  - intros p. split; reflexivity.
Qed.

(** C10 at a request without a multipart body. *)
Lemma C10_witness :
  let r := Mem.bare {["id" := "cat.png"]} in
  Code (w (serve createHandler r Mem.empty_bucket)) = 500
  ∧ Code (w (serve updateHandler r Mem.empty_bucket)) = 500
  ∧ calls (serve createHandler r Mem.empty_bucket) = []
  ∧ calls (serve updateHandler r Mem.empty_bucket) = [].
Proof.
  intros r.
  assert (Hf : FormFile r "myFile"
               = Err "request Content-Type isn't multipart/form-data")
    by reflexivity.
  destruct (C10_rejected_at_file_extraction r Mem.empty_bucket _ Hf)
    as ((H1 & _ & _ & H2 & _) & (H3 & _ & _ & H4 & _) & _).
  by repeat split.
Defined.

(** * Further properties of the handlers *)

Section ShapeFacts.

Context {St Obj Image : Type}.
Context {CS : CloudStorage St Obj} {IM : ImageMapper Obj Image}.
Context {JI : JSONProducer Image} {JIs : JSONProducer (list Image)}.
Context {RT : GoRuntime}.

Lemma untouched_init (st : St) : untouched (init st).
Proof. done. Qed.

(** All that [writeResponse] leaves in the writer and in the log. *)
Lemma writeResponse_full (status : Z) (msg : string) (s : State St) :
  untouched s →
  let s' := exec (writeResponse status msg) s in
  w s' = {| HeaderMap := response_headers; wroteHeader := true;
            Code := status; Body := sent status msg |}
  ∧ logged s' = (if status =? 200 then []
                 else ["Webserver : " +:+ fmt_Sprintf0 msg])
  ∧ store s' = store s ∧ calls s' = calls s.
Proof.
  intros [Hw Hl]. destruct s as [w0 st cl lg]; simpl in *; subst.
  unfold exec, writeResponse, StatusOK, sent.
  destruct (status =? 200); simpl; unfold bodyAllowedForStatus;
    repeat match goal with
           | |- context [if ?c then _ else _] => destruct c
           end; done.
Qed.

Lemma ends_with_writeResponse (statuses : list Z) (status : Z) (msg : string) :
  status ∈ statuses → ends_with (St := St) statuses (writeResponse status msg).
Proof. intros Hin s Hs. by exists status, msg, s. Qed.

Lemma ends_with_writeErrorMsg (statuses : list Z) (err : error) :
  500 ∈ statuses → ends_with (St := St) statuses (writeErrorMsg err).
Proof. intros Hin. by apply ends_with_writeResponse. Qed.

Lemma ends_with_writeJSON {T} {J : JSONProducer T} (statuses : list Z)
    (j : T) (status : Z) :
  status ∈ statuses → 500 ∈ statuses →
  ends_with (St := St) statuses (writeJSON j status).
Proof.
  intros H1 H2. unfold writeJSON. destruct (JSON j).
  - by apply ends_with_writeResponse.
  - by apply ends_with_writeErrorMsg.
Qed.

(** A call on the gateway touches neither the writer nor the log. *)
Lemma ends_with_on_cs {A} (statuses : list Z) (c : Call) (op : St → A * St)
    (k : A → M St unit) :
  (∀ a, ends_with (St := St) statuses (k a)) →
  ends_with (St := St) statuses (a ← on_cs c op; k a).
Proof.
  intros Hk s Hs. rewrite run_on_cs. by apply Hk.
Qed.

(** Every handler ends in exactly one [writeResponse], with a status of
    its route, on a writer and a log that nothing touched before. *)
Lemma handler_shape (rt : Route) (r : Request) :
  ends_with (St := St) (statuses_of rt) (handler_of rt r).
Proof.
  destruct rt; simpl.
  - unfold listHandler, cs_List_call.
    apply ends_with_on_cs. intros [fs|e].
    + destruct (NewImages fs).
      * apply ends_with_writeJSON; set_solver.
      * apply ends_with_writeErrorMsg; set_solver.
    + apply ends_with_writeErrorMsg; set_solver.
  - unfold createHandler.
    destruct (FormFile r "myFile") as [[file handler]|e].
    + destruct (negb (Valid _ _)).
      * apply ends_with_writeErrorMsg; set_solver.
      * unfold cs_Create_call. apply ends_with_on_cs. intros [e|].
        -- apply ends_with_writeErrorMsg; set_solver.
        -- apply ends_with_writeResponse; set_solver.
    + apply ends_with_writeErrorMsg; set_solver.
  - unfold readHandler, cs_Read_call.
    apply ends_with_on_cs. intros [fs|e].
    + destruct (NewImages fs) as [[|i0 rest]|e].
      * apply ends_with_writeResponse; set_solver.
      * apply ends_with_writeJSON; set_solver.
      * apply ends_with_writeErrorMsg; set_solver.
    + apply ends_with_writeErrorMsg; set_solver.
  - unfold deleteHandler, cs_Delete_call.
    apply ends_with_on_cs. intros [e|].
    + apply ends_with_writeErrorMsg; set_solver.
    + apply ends_with_writeJSON; set_solver.
  - unfold updateHandler.
    destruct (FormFile r "myFile") as [[file handler]|e].
    + unfold cs_Delete_call. apply ends_with_on_cs. intros [e|].
      * apply ends_with_writeErrorMsg; set_solver.
      * unfold cs_Create_call. apply ends_with_on_cs. intros [e|].
        -- apply ends_with_writeErrorMsg; set_solver.
        -- apply ends_with_writeResponse; set_solver.
    + apply ends_with_writeErrorMsg; set_solver.
Qed.

Lemma serve_shape (rt : Route) (r : Request) (st : St) :
  ∃ status msg s0, status ∈ statuses_of rt ∧ untouched s0
    ∧ serve (handler_of rt) r st = exec (writeResponse status msg) s0.
Proof. apply handler_shape, untouched_init. Qed.

End ShapeFacts.


(** X2: an answer is logged exactly when its status is not 200: a 200
    leaves no line, and any other status, the successes 201 and 204 like
    the failures, leaves the one line Webserver : followed by the message
    given to [fmt.Sprintf] as a format; that message is the body sent,
    unless the status allows no body. *)
Theorem X2_logged_unless_200
  {St Obj Image : Type} {CS : CloudStorage St Obj}
  {IM : ImageMapper Obj Image} {JI : JSONProducer Image}
  {JIs : JSONProducer (list Image)} {RT : GoRuntime}
  (rt : Route) (r : Request) (st : St) :
  let s' := serve (handler_of rt) r st in
  if Code (w s') =? 200 then logged s' = []
  else ∃ msg, logged s' = ["Webserver : " +:+ fmt_Sprintf0 msg]
              ∧ Body (w s') = sent (Code (w s')) msg.
Proof.
  intros s'.
  destruct (serve_shape rt r st) as (status & msg & s0 & _ & Hs0 & Heq).
  destruct (writeResponse_full status msg s0 Hs0) as (Hw & Hl & _).
  unfold s'. rewrite Heq, Hl, Hw. simpl.
  destruct (status =? 200); [done|]. by exists msg.
Qed.

(** X3: each route answers with a status of its own short list: 200 or
    500 for the list and the update, 201 or 500 for the create, 200, 204
    or 500 for the read, 204 or 500 for the delete; no route answers with
    a 4xx status. *)
Theorem X3_statuses_of_each_route
  {St Obj Image : Type} {CS : CloudStorage St Obj}
  {IM : ImageMapper Obj Image} {JI : JSONProducer Image}
  {JIs : JSONProducer (list Image)} {RT : GoRuntime}
  (rt : Route) (r : Request) (st : St) :
  let s' := serve (handler_of rt) r st in
  Code (w s') ∈ statuses_of rt
  ∧ ¬ (400 ≤ Code (w s') < 500).
Proof.
  intros s'.
  destruct (serve_shape rt r st) as (status & msg & s0 & Hin & Hs0 & Heq).
  destruct (writeResponse_full status msg s0 Hs0) as (Hw & _).
  unfold s'. rewrite Heq, Hw. simpl. split; [done|].
  destruct rt; simpl in Hin;
    repeat (apply elem_of_cons in Hin as [->|Hin]; [lia|]);
    by apply not_elem_of_nil in Hin.
Qed.

Section RouteFacts.

Context {St Obj Image : Type}.
Context {CS : CloudStorage St Obj} {IM : ImageMapper Obj Image}.
Context {JI : JSONProducer Image} {JIs : JSONProducer (list Image)}.
Context {RT : GoRuntime}.

(** What [writeJSON] leaves on a fresh writer. *)
Lemma writeJSON_spec {T} {J : JSONProducer T} (j : T) (status : Z)
    (s : State St) :
  fresh s →
  let s' := exec (writeJSON j status) s in
  store s' = store s ∧ calls s' = calls s
  ∧ match JSON j with
    | Ok json => Code (w s') = status ∧ Body (w s') = sent status json
    | Err e => Code (w s') = 500 ∧ Body (w s') = error_body e
    end.
Proof.
  intros Hs. unfold writeJSON. destruct (JSON j) as [json|e].
  - destruct (writeResponse_spec status json s Hs) as (? & ? & ? & ?).
    by repeat split.
  - destruct (writeErrorMsg_spec e s Hs) as (? & ? & ? & ?).
    by repeat split.
Qed.

Lemma fresh_after_call {A} (c : Call) (op : St → A * St) (st : St) :
  fresh {| w := w (init st); store := (op (store (init st))).2;
           calls := calls (init st) ++ [c]; logged := logged (init st) |}.
Proof. done. Qed.

(** The create route on a type that the validator refuses. *)
Lemma createHandler_rejects (r : Request) (st : St) (file : string)
    (handler : FileHeader) :
  FormFile r "myFile" = Ok (file, handler) →
  Valid (NewMimeMap allowed_types)
        (Header_Get (Header handler) "Content-Type") = false →
  serve createHandler r st =
  exec (writeErrorMsg
          ("invalid image type, want one of "
           +:+ List (NewMimeMap allowed_types) +:+ " got : "
           +:+ Header_Get (Header handler) "Content-Type")) (init st).
Proof.
  intros Hfile Hv. unfold serve, createHandler. by rewrite Hfile, Hv.
Qed.

End RouteFacts.

(** X4: an upload to the create route whose Content-Type is one of the
    allowed types reaches the gateway: the one call made is [Create] with
    the name and the bytes of the upload; the answer is 201 with an empty
    body when it returns no error and 500 with the cause when it does. *)
Theorem X4_listed_type_reaches_Create
  {St Obj Image : Type} {CS : CloudStorage St Obj}
  {IM : ImageMapper Obj Image} {JI : JSONProducer Image}
  {JIs : JSONProducer (list Image)} {RT : GoRuntime}
  (r : Request) (st : St) (file : string) (handler : FileHeader) :
  FormFile r "myFile" = Ok (file, handler) →
  Header_Get (Header handler) "Content-Type" ∈ allowed_types →
  let s' := serve createHandler r st in
  let cre := cs_Create (Filename handler) file st in
  calls s' = [CallCreate (Filename handler) file] ∧ store s' = cre.2
  ∧ match cre.1 with
    | Some e =>
        Code (w s') = 500
        ∧ Body (w s') = error_body ("image couldn't be created: " +:+ e)
    | None => Code (w s') = 201 ∧ Body (w s') = ""
    end.
Proof.
  intros Hfile Hin s' cre.
  pose proof (createHandler_cases r st file handler Hfile) as H.
  simpl in H. apply allowed_types_valid in Hin. by rewrite Hin in H.
Qed.

(** X4 at the upload of a PNG to an empty bucket. *)
Lemma X4_witness :
  let r := Mem.upload "cat.png" "PNG" "image/png" ∅ in
  let s' := serve createHandler r Mem.empty_bucket in
  ("image/png" ∈ allowed_types)
  ∧ calls s' = [CallCreate "cat.png" "PNG"] ∧ Code (w s') = 201.
Proof.
  intros r s'.
  assert (Hf : FormFile r "myFile"
               = Ok ("PNG", {| Filename := "cat.png";
                               Header := {["Content-Type" := ["image/png"]]} |}))
    by reflexivity.
  assert (Hn : "image/png" ∈ allowed_types)
    by (apply (bool_decide_unpack _); vm_compute; exact I).
  pose proof (X4_listed_type_reaches_Create r Mem.empty_bucket _ _ Hf Hn) as H.
  destruct H as (H1 & _ & H3). vm_compute in H3. destruct H3 as [H3 _].
  by repeat split.
Defined.

(** X5: an upload whose part has no Content-Type header, or an empty
    list of values under it, is read as the empty type and rejected: 500,
    the message ends in got : with nothing after it, and no call is made
    on the gateway. *)
Theorem X5_missing_content_type_is_rejected
  {St Obj Image : Type} {CS : CloudStorage St Obj}
  {IM : ImageMapper Obj Image} {JI : JSONProducer Image}
  {JIs : JSONProducer (list Image)} {RT : GoRuntime}
  (r : Request) (st : St) (file : string) (handler : FileHeader) :
  FormFile r "myFile" = Ok (file, handler) →
  Header handler !! "Content-Type" = None
  ∨ Header handler !! "Content-Type" = Some [] →
  let s' := serve createHandler r st in
  Code (w s') = 500
  ∧ Body (w s')
    = error_body ("invalid image type, want one of "
                  +:+ List (NewMimeMap allowed_types) +:+ " got : ")
  ∧ calls s' = [] ∧ store s' = st.
Proof.
  intros Hfile Hh s'.
  assert (Hget : Header_Get (Header handler) "Content-Type" = "").
  { unfold Header_Get. by destruct Hh as [-> | ->]. }
  assert (Hv : Valid (NewMimeMap allowed_types)
                 (Header_Get (Header handler) "Content-Type") = false).
  { rewrite Hget. by vm_compute. }
  unfold s'. rewrite (createHandler_rejects r st file handler Hfile Hv), Hget.
  destruct (writeErrorMsg_spec
    ("invalid image type, want one of "
     +:+ List (NewMimeMap allowed_types) +:+ " got : " +:+ "")
    (init st) (init_fresh st)) as (H1 & H2 & H3 & H4).
  rewrite append_nil_r in H2. by repeat split.
Qed.

(** X5 at an upload whose part carries no header at all. *)
Lemma X5_witness :
  let r := {| Vars := ∅; ParseMultipartForm := fun _ => None;
              FormFile := fun _ =>
                Ok ("PNG", {| Filename := "cat.png"; Header := ∅ |}) |} in
  let s' := serve createHandler r Mem.empty_bucket in
  Code (w s') = 500 ∧ calls s' = [].
Proof.
  intros r s'.
  assert (Hf : FormFile r "myFile"
               = Ok ("PNG", {| Filename := "cat.png"; Header := ∅ |}))
    by reflexivity.
  assert (Hh : Header {| Filename := "cat.png"; Header := ∅ |}
                 !! "Content-Type" = None
               ∨ Header {| Filename := "cat.png"; Header := ∅ |}
                 !! "Content-Type" = Some [])
    by (left; reflexivity).
  destruct (X5_missing_content_type_is_rejected r Mem.empty_bucket _ _ Hf Hh)
    as (H1 & _ & H3 & _).
  by split.
Defined.

(** X6: the update route never reads the headers of the uploaded part:
    two uploads with the same bytes, file name and route variables leave
    the same writer, store, calls and log, whatever their content types. *)
Theorem X6_update_ignores_part_headers
  {St Obj Image : Type} {CS : CloudStorage St Obj}
  {IM : ImageMapper Obj Image} {JI : JSONProducer Image}
  {JIs : JSONProducer (list Image)} {RT : GoRuntime}
  (r1 r2 : Request) (st : St) (file : string) (h1 h2 : FileHeader) :
  FormFile r1 "myFile" = Ok (file, h1) →
  FormFile r2 "myFile" = Ok (file, h2) →
  Filename h1 = Filename h2 → Vars r1 = Vars r2 →
  serve updateHandler r1 st = serve updateHandler r2 st.
Proof. apply updateHandler_ignores_header. Qed.

(** X6 at two uploads of the same bytes, one as image/png and one as
    text/html. *)
Lemma X6_witness :
  let r1 := Mem.upload "a.png" "DATA" "image/png" {["id" := "a.png"]} in
  let r2 := Mem.upload "a.png" "DATA" "text/html" {["id" := "a.png"]} in
  serve updateHandler r1 Mem.empty_bucket
  = serve updateHandler r2 Mem.empty_bucket.
Proof.
  intros r1 r2.
  exact (X6_update_ignores_part_headers r1 r2 Mem.empty_bucket "DATA"
           {| Filename := "a.png";
              Header := {["Content-Type" := ["image/png"]]} |}
           {| Filename := "a.png";
              Header := {["Content-Type" := ["text/html"]]} |}
           eq_refl eq_refl eq_refl eq_refl).
Defined.

(** X7: the list route makes the one call [List] and leaves the store
    that call left.  A [List] error is answered with 500 and failed to
    list files, a mapping error with 500 and failed to convert files; if
    both succeed the answer is 200 with the JSON of the images, or 500
    with the cause if their serialisation fails. *)
Theorem X7_list_response
  {St Obj Image : Type} {CS : CloudStorage St Obj}
  {IM : ImageMapper Obj Image} {JI : JSONProducer Image}
  {JIs : JSONProducer (list Image)} {RT : GoRuntime}
  (r : Request) (st : St) :
  let s' := serve listHandler r st in
  calls s' = [CallList] ∧ store s' = (cs_List st).2
  ∧ match (cs_List st).1 with
    | Err e =>
        Code (w s') = 500
        ∧ Body (w s') = error_body ("failed to list files: " +:+ e)
    | Ok fs =>
        match NewImages fs with
        | Err e =>
            Code (w s') = 500
            ∧ Body (w s')
              = error_body ("failed to convert files to images images: "
                            +:+ e)
        | Ok is_ =>
            match JSON is_ with
            | Ok json => Code (w s') = 200 ∧ Body (w s') = json
            | Err e => Code (w s') = 500 ∧ Body (w s') = error_body e
            end
        end
    end.
Proof.
  intros s'. unfold s', serve, listHandler, cs_List_call.
  rewrite run_on_cs.
  pose proof (fresh_after_call CallList cs_List st) as Hf.
  destruct ((cs_List (store (init st))).1) as [fs|e] eqn:E;
    change (store (init st)) with st in *; rewrite ?E.
  - destruct (NewImages fs) as [is_|e].
    + destruct (writeJSON_spec is_ StatusOK _ Hf) as (H1 & H2 & H3).
      by repeat split.
    + destruct (writeErrorMsg_spec
        ("failed to convert files to images images: " +:+ e) _ Hf)
        as (? & ? & ? & ?).
      by repeat split.
  - destruct (writeErrorMsg_spec ("failed to list files: " +:+ e) _ Hf)
      as (? & ? & ? & ?).
    by repeat split.
Qed.

(** X8: the read route makes the one call [Read(id)] and leaves the
    store that call left.  A [Read] error is answered with 500 and a
    message naming the id and the cause, a mapping error with 500; of the
    images mapped only the first is served, with 200 and its JSON, or 500
    with the cause if its serialisation fails; none gives 204. *)
Theorem X8_read_response
  {St Obj Image : Type} {CS : CloudStorage St Obj}
  {IM : ImageMapper Obj Image} {JI : JSONProducer Image}
  {JIs : JSONProducer (list Image)} {RT : GoRuntime}
  (r : Request) (st : St) :
  let id := Vars_get r "id" in
  let s' := serve readHandler r st in
  calls s' = [CallRead id] ∧ store s' = (cs_Read id st).2
  ∧ match (cs_Read id st).1 with
    | Err e =>
        Code (w s') = 500
        ∧ Body (w s')
          = error_body ("failed to read files " +:+ id +:+ ": " +:+ e)
    | Ok fs =>
        match NewImages fs with
        | Err e =>
            Code (w s') = 500
            ∧ Body (w s')
              = error_body ("failed to convert files to images images: "
                            +:+ e)
        | Ok [] => Code (w s') = 204 ∧ Body (w s') = ""
        | Ok (is0 :: _) =>
            match JSON is0 with
            | Ok json => Code (w s') = 200 ∧ Body (w s') = json
            | Err e => Code (w s') = 500 ∧ Body (w s') = error_body e
            end
        end
    end.
Proof.
  intros id s'. unfold s', serve, readHandler, cs_Read_call. fold id.
  rewrite run_on_cs.
  pose proof (fresh_after_call (CallRead id) (cs_Read id) st) as Hf.
  destruct ((cs_Read id (store (init st))).1) as [fs|e] eqn:E;
    change (store (init st)) with st in *; rewrite ?E.
  - destruct (NewImages fs) as [[|is0 rest]|e].
    + destruct (writeResponse_spec StatusNoContent "" _ Hf)
        as (? & ? & ? & ?).
      by repeat split.
    + destruct (writeJSON_spec is0 StatusOK _ Hf) as (H1 & H2 & H3).
      by repeat split.
    + destruct (writeErrorMsg_spec
        ("failed to convert files to images images: " +:+ e) _ Hf)
        as (? & ? & ? & ?).
      by repeat split.
  - destruct (writeErrorMsg_spec
      ("failed to read files " +:+ id +:+ ": " +:+ e) _ Hf)
      as (? & ? & ? & ?).
    by repeat split.
Qed.

(** * Further properties of the MIME validator *)

Section RenderFacts.

Lemma TrimRight_clean (x : string) :
  ends_clean x = true → TrimRight x ", " = x.
Proof.
  induction x as [|a x IH]; [done|]. intros Hc.
  destruct x as [|b x].
  - cbn [TrimRight ends_clean] in *. by destruct (in_cutset ", " a).
  - change (ends_clean (String b x) = true) in Hc.
    change (TrimRight (String a (String b x)) ", ")
      with (match TrimRight (String b x) ", " with
            | EmptyString =>
                if in_cutset ", " a then EmptyString else String a EmptyString
            | t => String a t
            end).
    by rewrite (IH Hc).
Qed.

Lemma ends_clean_app (x y : string) :
  y ≠ "" → ends_clean (x +:+ y) = ends_clean y.
Proof.
  intros Hy. induction x as [|a x IH]; [done|].
  rewrite append_cons.
  destruct (x +:+ y) as [|b z] eqn:E.
  - destruct x; [by rewrite append_nil_l in E | discriminate].
  - exact IH.
Qed.

(** The text that the loop of [List] builds: the keys joined by a comma
    and a space, and one more comma and space at the end. *)
Lemma List_loop_concat (order : list string) (acc : string) :
  foldl (fun sb i => sb +:+ i +:+ ", ") acc order =
  acc +:+ match order with
          | [] => ""
          | _ => String.concat ", " order +:+ ", "
          end.
Proof.
  revert acc. induction order as [|k ks IH]; intros acc.
  - by rewrite append_nil_r.
  - cbn [foldl]. rewrite IH. destruct ks as [|k2 ks].
    + by rewrite append_nil_r, ?append_assoc.
    + change (String.concat ", " (k :: k2 :: ks))
        with (k +:+ ", " +:+ String.concat ", " (k2 :: ks)).
      by rewrite !append_assoc.
Qed.

Lemma concat_clean (order : list string) :
  order ≠ [] → (∀ k, k ∈ order → ends_clean k = true) →
  ends_clean (String.concat ", " order) = true.
Proof.
  induction order as [|k ks IH]; [done|]. intros _ Hall.
  destruct ks as [|k2 ks].
  - apply Hall. by left.
  - change (String.concat ", " (k :: k2 :: ks))
      with (k +:+ ", " +:+ String.concat ", " (k2 :: ks)).
    assert (Hrest : ends_clean (String.concat ", " (k2 :: ks)) = true).
    { apply IH; [done|]. intros k' Hk'. apply Hall. by right. }
    rewrite ends_clean_app; [|by destruct (String.concat ", " (k2 :: ks))].
    rewrite ends_clean_app; [done|].
    intros E. by rewrite E in Hrest.
Qed.

Lemma List_of_clean (order : list string) :
  (∀ k, k ∈ order → ends_clean k = true) →
  List_of order = String.concat ", " order.
Proof.
  intros Hall. unfold List_of. rewrite List_loop_concat, append_nil_l.
  destruct order as [|k ks]; [done|].
  rewrite TrimRight_app.
  change (TrimRight ", " ", ") with "".
  by apply TrimRight_clean, concat_clean.
Qed.

(** What [NewMimeMap] stores under a key. *)
Lemma foldl_insert_lookup_val (s : list string) (m : MimeMap) (c : string) :
  foldl (fun m v => <[v:=true]> m) m s !! c
  = if decide (c ∈ s) then Some true else m !! c.
Proof.
  revert m. induction s as [|v s IH]; intros m; cbn [foldl].
  - destruct (decide (c ∈ [])) as [H|H]; [|done].
    by apply not_elem_of_nil in H.
  - rewrite IH, lookup_insert.
    destruct (decide (v = c)) as [Heq|Hne].
    + rewrite Heq.
      destruct (decide (c ∈ c :: s)) as [_|Hn];
        [by destruct (decide (c ∈ s)) | exfalso; apply Hn; by left].
    + destruct (decide (c ∈ s)) as [Hin|Hnin],
               (decide (c ∈ v :: s)) as [Hin2|Hnin2]; try done.
      * exfalso. apply Hnin2. by right.
      * apply elem_of_cons in Hin2 as [Hin2|Hin2]; [by symmetry in Hin2 | done].
Qed.

End RenderFacts.

(** X9: when no key of the map is empty or ends in a comma or a space,
    [List] is the keys in the order [range] visits them, joined by a
    comma and a space, with no separator after the last; the list of the
    empty map is the empty string. *)
Theorem X9_List_joins_the_keys {RT : GoRuntime} (m : MimeMap) :
  (∀ k, is_Some (m !! k) → ends_clean k = true) →
  List m = String.concat ", " (range_order m)
  ∧ (m = ∅ → List m = "").
Proof.
  intros Hall. assert (H : List m = String.concat ", " (range_order m)).
  { unfold List. apply List_of_clean. intros k Hk.
    by apply Hall, range_order_elem. }
  split; [exact H|]. intros ->. rewrite H.
  pose proof (range_order_keys ∅) as Hp. rewrite map_to_list_empty in Hp.
  by apply Permutation_nil_r in Hp as ->.
Qed.

(** X9 at the allow-list of the create route. *)
Lemma X9_witness :
  List (NewMimeMap allowed_types) = "image/gif, image/jpeg, image/png".
Proof.
  assert (Hall : ∀ k, is_Some (NewMimeMap allowed_types !! k) →
                      ends_clean k = true).
  { intros k Hk. apply Valid_true_iff, allowed_types_valid in Hk.
    unfold allowed_types in Hk.
    repeat (apply elem_of_cons in Hk as [->|Hk]; [reflexivity|]).
    by apply not_elem_of_nil in Hk. }
  destruct (X9_List_joins_the_keys (NewMimeMap allowed_types) Hall) as [H _].
  rewrite H. vm_compute. reflexivity.
Defined.

(** X10: [NewMimeMap] keeps nothing of the order and the repetitions of
    its list: every element is stored with the value true and nothing else
    is stored, so two lists with the same elements give the same map. *)
Theorem X10_NewMimeMap_is_the_set_of_elements (s1 s2 : list string) :
  (∀ c, c ∈ s1 ↔ c ∈ s2) →
  NewMimeMap s1 = NewMimeMap s2
  ∧ (∀ c, NewMimeMap s1 !! c = if decide (c ∈ s1) then Some true else None).
Proof.
  intros Hsame.
  assert (Hl : ∀ s c, NewMimeMap s !! c
                      = if decide (c ∈ s) then Some true else None).
  { intros s c. unfold NewMimeMap.
    by rewrite foldl_insert_lookup_val, lookup_empty. }
  split; [|apply Hl].
  apply map_eq. intros c. rewrite !Hl.
  destruct (decide (c ∈ s1)) as [H1|H1], (decide (c ∈ s2)) as [H2|H2];
    try done; by apply Hsame in H1 || apply Hsame in H2.
Qed.

(** X10 at a list with a repetition and the same elements in another
    order. *)
Lemma X10_witness :
  NewMimeMap ["image/png"; "image/gif"; "image/png"]
  = NewMimeMap ["image/gif"; "image/png"].
Proof.
  assert (Hsame : ∀ c, c ∈ ["image/png"; "image/gif"; "image/png"]
                       ↔ c ∈ ["image/gif"; "image/png"]).
  { intros c. rewrite !elem_of_cons, !elem_of_nil. tauto. }
  exact (proj1 (X10_NewMimeMap_is_the_set_of_elements _ _ Hsame)).
Defined.

(** * Further properties of the bodies *)




Section MessageFacts.

Lemma parse_two_members (k : nat) (u1 u2 : string) :
  json_chars u1 → json_chars u2 →
  JsonSyntax.parse (S (S (S (S k)))) JsonSyntax.AValue
    ("{" +:+ dq +:+ "text" +:+ dq +:+ ":" +:+ dq +:+ u1 +:+ dq
     +:+ "," +:+ dq +:+ "details" +:+ dq +:+ ":" +:+ dq +:+ u2 +:+ dq +:+ "}")
  = Some "".
Proof.
  intros H1 H2. unfold dq. rewrite !append_cons, !append_nil_l.
  cbn [JsonSyntax.parse]. simpl. rewrite H1. simpl. rewrite H2. reflexivity.
Qed.

Lemma Message_json_is_json (m : Message) :
  JsonSyntax.is_json (Message_json m) = true.
Proof.
  unfold JsonSyntax.is_json.
  assert (Hb : Message_json m
    = "{" +:+ dq +:+ "text" +:+ dq +:+ ":" +:+ dq
      +:+ Json.appendString_loop (String.length (Text m)) (Text m) +:+ dq
      +:+ "," +:+ dq +:+ "details" +:+ dq +:+ ":" +:+ dq
      +:+ Json.appendString_loop (String.length (Details m)) (Details m)
      +:+ dq +:+ "}").
  { unfold Message_json, Json.appendString. by rewrite !append_assoc. }
  rewrite Hb.
  set (u1 := Json.appendString_loop (String.length (Text m)) (Text m)).
  set (u2 := Json.appendString_loop (String.length (Details m)) (Details m)).
  assert (Hs : JsonSyntax.skip_ws ("{" +:+ dq +:+ "text" +:+ dq +:+ ":" +:+ dq
      +:+ u1 +:+ dq +:+ "," +:+ dq +:+ "details" +:+ dq +:+ ":" +:+ dq
      +:+ u2 +:+ dq +:+ "}")
      = "{" +:+ dq +:+ "text" +:+ dq +:+ ":" +:+ dq
      +:+ u1 +:+ dq +:+ "," +:+ dq +:+ "details" +:+ dq +:+ ":" +:+ dq
      +:+ u2 +:+ dq +:+ "}") by reflexivity.
  rewrite Hs.
  match goal with
  | |- context [S (String.length ?b)] =>
      destruct (String.length b) as [|[|[|k]]] eqn:Elen
  end;
    try (rewrite !length_append in Elen; simpl in Elen; lia).
  rewrite parse_two_members; [reflexivity | | ];
    apply appendString_loop_json_chars.
Qed.

End MessageFacts.

(** X11: [Message.JSON] and [Message.JSONBytes] never fail and return
    the same bytes, and these are a JSON text whatever bytes the text and
    the details hold, quotes, backslashes, control bytes and invalid
    UTF-8 included. *)
Theorem X11_Message_JSON_is_always_json (m : Message) :
  JSON m = Ok (Message_json m)
  ∧ JSONBytes m = JSON m
  ∧ JsonSyntax.is_json (Message_json m) = true.
Proof.
  split; [reflexivity|]. split; [reflexivity|].
  apply Message_json_is_json.
Qed.
